(** * ShopEasy payment service: the payment confirmation reconciler

    A shallow embedding of [supabase/functions/payments-simple/index.ts]:
    the request router of [Deno.serve], the synchronous
    [/paystack/verify/:reference] handler with its bounded polling loop, and
    the [/paystack/webhook] handler with its signature check.  The Supabase
    tables are lists of rows, the provider and the clock are oracles of the
    environment, and a handler is a computation in a state-and-exception
    monad whose state survives a thrown exception, as a committed database
    write survives a later JavaScript exception. *)

From Stdlib Require Import String Ascii ZArith List Bool Arith Lia DecimalString.
Import ListNotations.
Local Open Scope string_scope.

(** ** JavaScript values and the string functions the handler uses *)
Module Js.

(** A value as [JSON.parse] or [Response.json] produce it, plus [undefined].
    Numbers are integers: the provider's amounts and ids are. *)
#[local] Set Warnings "-register-all".
Inductive JsVal : Type :=
| JUndefined
| JNull
| JBool (b : bool)
| JNum (n : Z)
| JStr (s : string)
| JArr (items : list JsVal)
| JObj (fields : list (string * JsVal)).

(** The result of an expression that may throw; [Thrown] carries
    [error.message]. *)
Inductive Res (A : Type) : Type :=
| Val (a : A)
| Thrown (message : string).
Arguments Val {A} a.
Arguments Thrown {A} message.

(** [!v] is [negb (truthy v)]. *)
Definition truthy (v : JsVal) : bool :=
  match v with
  | JUndefined | JNull => false
  | JBool b => b
  | JNum n => negb (n =? 0)%Z
  | JStr s => negb (s =? "")
  | JArr _ | JObj _ => true
  end.

Definition nullish (v : JsVal) : bool :=
  match v with
  | JUndefined | JNull => true
  | _ => false
  end.

Fixpoint assoc (p : string) (fields : list (string * JsVal)) : JsVal :=
  match fields with
  | [] => JUndefined
  | (k, v) :: rest => if p =? k then v else assoc p rest
  end.

(** [v.p] for the property names the handler reads ([status], [data],
    [message], [event], [reference], [amount], [id], [paid_at]): a TypeError
    on [undefined] and [null], the field of an object, [undefined] on any
    other value. *)
Definition get (v : JsVal) (p : string) : Res JsVal :=
  match v with
  | JUndefined => Thrown ("Cannot read properties of undefined (reading '" ++ p ++ "')")
  | JNull => Thrown ("Cannot read properties of null (reading '" ++ p ++ "')")
  | JObj fields => Val (assoc p fields)
  | _ => Val JUndefined
  end.

(** [v?.p] *)
Definition opt_get (v : JsVal) (p : string) : Res JsVal :=
  if nullish v then Val JUndefined else get v p.

(** [a || b] *)
Definition or_else (a b : JsVal) : JsVal := if truthy a then a else b.

Definition join (sep : string) (parts : list string) : string :=
  match parts with
  | [] => ""
  | x :: rest => fold_left (fun acc y => acc ++ sep ++ y) rest x
  end.

(** [String(v)], which is also what a template literal and [v.toString()]
    (on a value that is neither [undefined] nor [null]) give; a number is
    printed in decimal digits. *)
Fixpoint to_String (v : JsVal) : string :=
  match v with
  | JUndefined => "undefined"
  | JNull => "null"
  | JBool true => "true"
  | JBool false => "false"
  | JNum n => NilZero.string_of_int (Z.to_int n)
  | JStr s => s
  | JArr items =>
      join "," (map (fun x => if nullish x then "" else to_String x) items)
  | JObj _ => "[object Object]"
  end.

(** [v?.toString()] *)
Definition opt_toString (v : JsVal) : option string :=
  if nullish v then None else Some (to_String v).

(** [v === 'lit'] *)
Definition is_str (v : JsVal) (lit : string) : bool :=
  match v with
  | JStr s => s =? lit
  | _ => false
  end.

(** [s.includes(needle)] *)
Fixpoint includes (needle s : string) : bool :=
  if String.prefix needle s then true
  else match s with
       | EmptyString => false
       | String _ rest => includes needle rest
       end.

(** [s.endsWith(suffix)] *)
Fixpoint endsWith (suffix s : string) : bool :=
  if s =? suffix then true
  else match s with
       | EmptyString => false
       | String _ rest => endsWith suffix rest
       end.

(** What follows the first occurrence of [sep] in [s], if there is one. *)
Fixpoint after_first (sep s : string) : option string :=
  if String.prefix sep s
  then Some (String.substring (String.length sep)
                              (String.length s - String.length sep) s)
  else match s with
       | EmptyString => None
       | String _ rest => after_first sep rest
       end.

(** What precedes the first occurrence of [sep] in [s]; all of [s] when
    there is none. *)
Fixpoint before_first (sep s : string) : string :=
  if String.prefix sep s then ""
  else match s with
       | EmptyString => ""
       | String c rest => String c (before_first sep rest)
       end.

(** [s.split(sep)[1]] for a non-empty [sep]: [None] is [undefined]. *)
Definition split_1 (sep s : string) : option string :=
  match after_first sep s with
  | None => None
  | Some rest => Some (before_first sep rest)
  end.

(** [s.replace(/\/$/, '')]: one trailing slash is removed. *)
Fixpoint strip_trailing_slash (s : string) : string :=
  match s with
  | EmptyString => ""
  | String c EmptyString => if (c =? "/")%char then "" else s
  | String c rest => String c (strip_trailing_slash rest)
  end.

End Js.

(** ** The [Date] operations of the handler (ECMAScript, section "Date
    Objects"), on time values in milliseconds since the epoch.  The edge
    runtime's local time zone is UTC. *)
Module JsDate.
Local Open Scope Z_scope.

Definition msPerDay : Z := 86400000.

Definition Day (t : Z) : Z := t / msPerDay.
Definition TimeWithinDay (t : Z) : Z := t mod msPerDay.

Definition DaysInYear (y : Z) : Z :=
  if negb (y mod 4 =? 0) then 365
  else if negb (y mod 100 =? 0) then 366
  else if negb (y mod 400 =? 0) then 365
  else 366.

Definition DayFromYear (y : Z) : Z :=
  365 * (y - 1970) + (y - 1969) / 4 - (y - 1901) / 100 + (y - 1601) / 400.

Definition TimeFromYear (y : Z) : Z := msPerDay * DayFromYear y.

(** The year containing day number [d]: the largest [y] with
    [DayFromYear y <= d], found from the mean length of a Gregorian year
    (146097 days in 400 years) and corrected by at most one. *)
Definition YearFromDay (d : Z) : Z :=
  let y := 1970 + (d * 400) / 146097 in
  if d <? DayFromYear y then y - 1
  else if DayFromYear (y + 1) <=? d then y + 1
  else y.

Definition YearFromTime (t : Z) : Z := YearFromDay (Day t).

Definition leap (y : Z) : Z := if DaysInYear y =? 366 then 1 else 0.
Definition InLeapYear (t : Z) : Z := leap (YearFromTime t).

Definition DayWithinYear (t : Z) : Z := Day t - DayFromYear (YearFromTime t).

Definition MonthFromTime (t : Z) : Z :=
  let d := DayWithinYear t in
  let L := InLeapYear t in
  if d <? 31 then 0
  else if d <? 59 + L then 1
  else if d <? 90 + L then 2
  else if d <? 120 + L then 3
  else if d <? 151 + L then 4
  else if d <? 181 + L then 5
  else if d <? 212 + L then 6
  else if d <? 243 + L then 7
  else if d <? 273 + L then 8
  else if d <? 304 + L then 9
  else if d <? 334 + L then 10
  else 11.

Definition DateFromTime (t : Z) : Z :=
  let d := DayWithinYear t in
  let L := InLeapYear t in
  match MonthFromTime t with
  | 0 => d + 1
  | 1 => d - 30
  | 2 => d - 58 - L
  | 3 => d - 89 - L
  | 4 => d - 119 - L
  | 5 => d - 150 - L
  | 6 => d - 180 - L
  | 7 => d - 211 - L
  | 8 => d - 242 - L
  | 9 => d - 272 - L
  | 10 => d - 303 - L
  | _ => d - 333 - L
  end.

(** Days of the year before month [mn] (0 to 11). *)
Definition DaysBeforeMonth (mn L : Z) : Z :=
  match mn with
  | 0 => 0
  | 1 => 31
  | 2 => 59 + L
  | 3 => 90 + L
  | 4 => 120 + L
  | 5 => 151 + L
  | 6 => 181 + L
  | 7 => 212 + L
  | 8 => 243 + L
  | 9 => 273 + L
  | 10 => 304 + L
  | _ => 334 + L
  end.

(** Days in month [m] (0 to 11). *)
Definition DaysInMonth (m L : Z) : Z :=
  match m with
  | 1 => 28 + L
  | 3 | 5 | 8 | 10 => 30
  | _ => 31
  end.

(** [dt] is a day of month [m] of year [y]. *)
Definition calendar_date (y m dt : Z) : Prop :=
  0 <= m <= 11 /\ 1 <= dt <= DaysInMonth m (leap y).

(** [MakeDay(year, month, date)]: months beyond 0..11 carry into the year
    and a date beyond the month's length carries into the next month. *)
Definition MakeDay (year month date : Z) : Z :=
  let ym := year + month / 12 in
  let mn := month mod 12 in
  DayFromYear ym + DaysBeforeMonth mn (leap ym) + date - 1.

Definition MakeDate (day time : Z) : Z := day * msPerDay + time.

Definition getMonth (t : Z) : Z := MonthFromTime t.
Definition getFullYear (t : Z) : Z := YearFromTime t.

(** [d.setMonth(m)] and [d.setFullYear(y)] return the new time value of
    [d]. *)
Definition setMonth (t m : Z) : Z :=
  MakeDate (MakeDay (YearFromTime t) m (DateFromTime t)) (TimeWithinDay t).

Definition setFullYear (t y : Z) : Z :=
  MakeDate (MakeDay y (MonthFromTime t) (DateFromTime t)) (TimeWithinDay t).

End JsDate.

(** ** The tables behind the Supabase client *)
Module Store.
Import Js.

Inductive PaymentStatus : Type := pending | completed | failed.

(** A row of [payments], as [/paystack/initialize] inserts it. *)
Module Payment.
Record row : Type := mk {
  reference : string;
  provider : string;
  organization_id : string;
  user_id : string;
  plan_id : string;
  billing_cycle : string;
  amount : Z;
  currency : string;
  status : PaymentStatus;
  verified_at : option Z;
  transaction_id : option string
}.

(** The object given to [.update(...)]; a [transaction_id] that is
    [undefined] is dropped when the object is serialised, and the column
    keeps its value. *)
Record patch : Type := mk_patch {
  new_status : PaymentStatus;
  new_verified_at : Z;
  new_transaction_id : option string
}.

Definition apply (u : patch) (p : row) : row :=
  {| reference := reference p;
     provider := provider p;
     organization_id := organization_id p;
     user_id := user_id p;
     plan_id := plan_id p;
     billing_cycle := billing_cycle p;
     amount := amount p;
     currency := currency p;
     status := new_status u;
     verified_at := Some (new_verified_at u);
     transaction_id := match new_transaction_id u with
                       | Some t => Some t
                       | None => transaction_id p
                       end |}.
End Payment.

(** A row of [subscriptions]: the columns of the object both handlers
    upsert.  Dates are the time values whose [toISOString()] the column
    holds; [payment_reference] is the value handed to the client. *)
Module Subscription.
Record row : Type := mk {
  organization_id : string;
  plan_id : string;
  billing_cycle : string;
  status : string;
  start_date : Z;
  end_date : Z;
  amount : Z;
  payment_reference : JsVal;
  provider : string
}.
End Subscription.

(** The subscription columns of a row of [organizations]. *)
Module Organization.
Record row : Type := mk {
  id : string;
  subscription_status : option string;
  subscription_plan : option string;
  subscription_end_date : option Z;
  trial_start_date : option Z
}.

Record patch : Type := mk_patch {
  new_subscription_status : string;
  new_subscription_plan : string;
  new_subscription_end_date : Z
}.

(** [trial_start_date: null] clears the trial. *)
Definition apply (u : patch) (o : row) : row :=
  {| id := id o;
     subscription_status := Some (new_subscription_status u);
     subscription_plan := Some (new_subscription_plan u);
     subscription_end_date := Some (new_subscription_end_date u);
     trial_start_date := None |}.
End Organization.

Record Db : Type := mkDb {
  payments : list Payment.row;
  subscriptions : list Subscription.row;
  organizations : list Organization.row
}.

(** [.from('payments').select('*').eq('reference', r)] *)
Definition payments_with (r : string) (d : Db) : list Payment.row :=
  filter (fun p => Payment.reference p =? r) (payments d).

(** [.single()]: the row when exactly one matches, an error otherwise. *)
Definition single {A : Type} (rows : list A) : option A :=
  match rows with
  | [x] => Some x
  | _ => None
  end.

(** [.from('payments').update(u).eq('reference', r)] *)
Definition update_payments (r : string) (u : Payment.patch) (d : Db) : Db :=
  {| payments := map (fun p => if Payment.reference p =? r
                               then Payment.apply u p else p) (payments d);
     subscriptions := subscriptions d;
     organizations := organizations d |}.

(** [.upsert(row, { onConflict: 'organization_id' })]: the row replaces the
    one of its organization, or is appended when there is none. *)
Definition upsert_row (row : Subscription.row) (rows : list Subscription.row)
  : list Subscription.row :=
  let same s := Subscription.organization_id s =? Subscription.organization_id row in
  if existsb same rows
  then map (fun s => if same s then row else s) rows
  else rows ++ [row].

Definition upsert_subscription (row : Subscription.row) (d : Db) : Db :=
  {| payments := payments d;
     subscriptions := upsert_row row (subscriptions d);
     organizations := organizations d |}.

(** [.from('organizations').update(u).eq('id', org)] *)
Definition update_organizations (org : string) (u : Organization.patch) (d : Db) : Db :=
  {| payments := payments d;
     subscriptions := subscriptions d;
     organizations := map (fun o => if Organization.id o =? org
                                    then Organization.apply u o else o)
                          (organizations d) |}.

(** The rows of [subscriptions] of one organization. *)
Definition subscriptions_of (org : string) (d : Db) : list Subscription.row :=
  filter (fun s => Subscription.organization_id s =? org) (subscriptions d).

(** The unique index that [onConflict: 'organization_id'] relies on. *)
Definition one_subscription_per_organization (d : Db) : Prop :=
  NoDup (map Subscription.organization_id (subscriptions d)).

End Store.

(** ** The request handler *)
Module Reconciler.
Import Js JsDate Store.

(** What a request leaves behind besides the tables: the provider calls and
    the waits of the polling loop, the [console.error] lines (the fixed part
    of their text; [console.log] lines are not recorded), and the statements
    sent to the tables. *)
Inductive Event : Type :=
| EvFetchVerify (reference : string) (attempt : nat)
| EvSleep (ms : Z)
| EvConsoleError (message : string)
| EvSelectPayment (reference : string)
| EvUpdatePayment (reference : string)
| EvUpsertSubscription (organization_id : string)
| EvUpdateOrganization (id : string).

(** How a call to a table ends: it is carried out, it returns
    [{ error }] without effect, or it throws. *)
Inductive Fault : Type := NoFault | ErrorReturned | ExceptionThrown.

(** The surroundings of one request.  [clock k] is the time value of the
    [k]-th [new Date()] of the request, [paystack_verify r k] is what the
    [k]-th [fetch] of [transaction/verify/r] and its [.json()] give:
    [response.ok] and the parsed body, or an exception. *)
Record Env : Type := mkEnv {
  paystackSecretKey : option string;
  clock : nat -> Z;
  paystack_verify : string -> nat -> Res (bool * JsVal);
  select_fault : Fault;
  update_fault : Fault;
  upsert_fault : Fault;
  organization_fault : Fault
}.

Record Request : Type := mkRequest {
  method : string;
  path : string;
  authorization : option string;
  x_paystack_signature : option string;
  body : string
}.

(** The JSON bodies the handler answers with.  [BVerified] stands for
    [{ success: true, status, amount: amount_kobo / 100, reference, paidAt }]. *)
Inductive Body : Type :=
| BText (text : string)
| BHealth (timestamp : Z)
| BError (error : string)
| BVerifyFailed (error : JsVal) (details : JsVal)
| BPaymentNotFound (error : string) (reference : string)
| BVerified (status : JsVal) (amount_kobo : JsVal) (reference : JsVal) (paidAt : JsVal)
| BAck
| BRouteNotFound (path : string) (timestamp : Z)
| BException (error : string) (timestamp : Z).

Record Response : Type := mkResponse {
  status : nat;
  payload : Body
}.

(** The [success] member of a body, when it has one. *)
Definition success (b : Body) : option bool :=
  match b with
  | BVerifyFailed _ _ | BPaymentNotFound _ _ => Some false
  | BVerified _ _ _ _ | BAck => Some true
  | _ => None
  end.

Record St : Type := mkSt {
  db : Db;
  ticks : nat;
  trace : list Event
}.

Definition start (d : Db) : St := {| db := d; ticks := 0; trace := [] |}.

(** *** The monad: state that survives exceptions *)
Definition M (A : Type) : Type := St -> Res A * St.

Definition ret {A : Type} (a : A) : M A := fun s => (Val a, s).

Definition bind {A B : Type} (c : M A) (k : A -> M B) : M B :=
  fun s => match c s with
           | (Val a, s') => k a s'
           | (Thrown e, s') => (Thrown e, s')
           end.

Definition lift {A : Type} (r : Res A) : M A := fun s => (r, s).

Definition throw {A : Type} (e : string) : M A := fun s => (Thrown e, s).

(** [try { c } catch (e) { h e }] *)
Definition try_catch {A : Type} (c : M A) (h : string -> M A) : M A :=
  fun s => match c s with
           | (Val a, s') => (Val a, s')
           | (Thrown e, s') => h e s'
           end.

Declare Scope js_scope.
Delimit Scope js_scope with js.
Notation "x <- c ;; k" := (bind c (fun x => k))
  (at level 61, c at next level, right associativity) : js_scope.
Notation "' pat <- c ;; k" := (bind c (fun x => match x with pat => k end))
  (at level 61, pat pattern, c at next level, right associativity) : js_scope.
Notation "c ;; k" := (bind c (fun _ => k))
  (at level 61, right associativity) : js_scope.
Local Open Scope js_scope.

Definition emit (e : Event) : M unit :=
  fun s => (Val tt, {| db := db s; ticks := ticks s; trace := trace s ++ [e] |}).

Definition console_error (message : string) : M unit := emit (EvConsoleError message).

(** [await new Promise(resolve => setTimeout(resolve, ms))] *)
Definition sleep (ms : Z) : M unit := emit (EvSleep ms).

Definition modify_db (f : Db -> Db) : M unit :=
  fun s => (Val tt, {| db := f (db s); ticks := ticks s; trace := trace s |}).

Definition read_db : M Db := fun s => (Val (db s), s).

(** [if (c) { k }] *)
Definition when (c : bool) (k : M unit) : M unit := if c then k else ret tt.

(** [!paystackSecretKey] fails for a key that is set and not empty. *)
Definition secret_key (k : option string) : option string :=
  match k with
  | Some s => if s =? "" then None else Some s
  | None => None
  end.

(** [hash !== signature], where [headers.get] gives a string or [null]. *)
Definition differs (hash : string) (signature : option string) : bool :=
  match signature with
  | Some s => negb (hash =? s)
  | None => true
  end.

Section Handlers.

(** [createHmacSha512(secret, message)]: the hexadecimal HMAC-SHA-512 digest
    that [crypto.subtle] computes. *)
Variable createHmacSha512 : string -> string -> string.

(** [JSON.parse], which throws on a text that is not JSON. *)
Variable JSON_parse : string -> Res JsVal.

Variable env : Env.

(** [new Date()] *)
Definition new_Date : M Z :=
  fun s => (Val (clock env (ticks s)),
            {| db := db s; ticks := S (ticks s); trace := trace s |}).

(** *** The calls to the tables.  Each gives [(data, error)], [error] as a
    flag. *)
Definition select_payment (r : string) : M (option Payment.row * bool) :=
  emit (EvSelectPayment r) ;;
  match select_fault env with
  | ExceptionThrown => throw "select payments"
  | ErrorReturned => ret (None, true)
  | NoFault =>
      d <- read_db ;;
      match single (payments_with r d) with
      | Some p => ret (Some p, false)
      | None => ret (None, true)
      end
  end.

Definition update_payment (r : string) (u : Payment.patch) : M bool :=
  emit (EvUpdatePayment r) ;;
  match update_fault env with
  | ExceptionThrown => throw "update payments"
  | ErrorReturned => ret true
  | NoFault => modify_db (update_payments r u) ;; ret false
  end.

Definition upsert (row : Subscription.row) : M (option Subscription.row * bool) :=
  emit (EvUpsertSubscription (Subscription.organization_id row)) ;;
  match upsert_fault env with
  | ExceptionThrown => throw "upsert subscriptions"
  | ErrorReturned => ret (None, true)
  | NoFault => modify_db (upsert_subscription row) ;; ret (Some row, false)
  end.

Definition update_organization (org : string) (u : Organization.patch) : M bool :=
  emit (EvUpdateOrganization org) ;;
  match organization_fault env with
  | ExceptionThrown => throw "update organizations"
  | ErrorReturned => ret true
  | NoFault => modify_db (update_organizations org u) ;; ret false
  end.

(** *** [/paystack/verify/:reference] *)

(** The test that ends the polling loop early:
    [paystackResponse.ok && paystackData.status
     && paystackData.data?.status === 'success']. *)
Definition verified_success (ok : bool) (envelope_status data_status : JsVal) : bool :=
  ok && truthy envelope_status && is_str data_status "success".

(** [while (attempts < 3) { attempts++; ... }].  The loop variables are
    [attempts] and the last [(paystackResponse.ok, paystackData)], [None]
    for the initial [null]s. *)
Fixpoint verify_loop (fuel : nat) (reference : string) (attempts : nat)
    (last : option (bool * JsVal)) : M (nat * option (bool * JsVal)) :=
  match fuel with
  | O => ret (attempts, last)
  | S fuel' =>
      if (attempts <? 3)%nat then
        let attempts := S attempts in
        emit (EvFetchVerify reference attempts) ;;
        r <- lift (paystack_verify env reference attempts) ;;
        data <- lift (get (snd r) "data") ;;
        data_status <- lift (opt_get data "status") ;;
        envelope_status <- lift (get (snd r) "status") ;;
        if verified_success (fst r) envelope_status data_status
        then ret (attempts, Some r)
        else
          when (attempts <? 3)%nat (sleep 2000) ;;
          verify_loop fuel' reference attempts (Some r)
      else ret (attempts, last)
  end.

(** The end date of the synchronous path, from the second clock reading. *)
Definition verify_end_date (billing_cycle : string) (endDate : Z) : M Z :=
  if billing_cycle =? "monthly" then
    ret (setMonth endDate (getMonth endDate + 1))
  else if billing_cycle =? "yearly" then
    ret (setFullYear endDate (getFullYear endDate + 1))
  else
    console_error ("UNKNOWN BILLING CYCLE: " ++ billing_cycle) ;;
    console_error "Defaulting to monthly" ;;
    ret (setMonth endDate (getMonth endDate + 1)).

(** The best-effort update of [organizations], inside its own [try]. *)
Definition sync_organization (payment : Payment.row) (endDate : Z) : M unit :=
  try_catch
    (orgUpdateError <- update_organization (Payment.organization_id payment)
        {| Organization.new_subscription_status := "active";
           Organization.new_subscription_plan := Payment.plan_id payment;
           Organization.new_subscription_end_date := endDate |} ;;
     if orgUpdateError : bool then
       console_error "Failed to update organization" ;;
       console_error "Subscription is still active, org table just not synced yet"
     else ret tt)
    (fun _ =>
       console_error "Exception updating organization" ;;
       console_error "This is non-critical, subscription is still active").

(** [if (paymentData.status === 'success' && payment) { ... }] *)
Definition create_subscription (reference : string) (payment : Payment.row) : M unit :=
  startDate <- new_Date ;;
  endDate0 <- new_Date ;;
  endDate <- verify_end_date (Payment.billing_cycle payment) endDate0 ;;
  let subscriptionData :=
    {| Subscription.organization_id := Payment.organization_id payment;
       Subscription.plan_id := Payment.plan_id payment;
       Subscription.billing_cycle := Payment.billing_cycle payment;
       Subscription.status := "active";
       Subscription.start_date := startDate;
       Subscription.end_date := endDate;
       Subscription.amount := Payment.amount payment;
       Subscription.payment_reference := JStr reference;
       Subscription.provider := "paystack" |} in
  ' (_, subscriptionError) <- upsert subscriptionData ;;
  if subscriptionError : bool then
    console_error "Failed to create subscription" ;;
    console_error "Error details"
  else sync_organization payment endDate.

(** [path.split('/paystack/verify/')[1]?.replace(/\/$/, '')]; the empty
    string stands for [undefined] too, both fail [if (!reference)]. *)
Definition verify_reference (path : string) : string :=
  match split_1 "/paystack/verify/" path with
  | Some r => strip_trailing_slash r
  | None => ""
  end.

(** The update of the payment row and, for a successful transaction, the
    subscription. *)
Definition confirm_payment (reference : string) (paymentData data_status : JsVal)
    (payment : Payment.row) : M unit :=
  verified_at <- new_Date ;;
  data_id <- lift (get paymentData "id") ;;
  updateError <- update_payment reference
    {| Payment.new_status := if is_str data_status "success" then completed else failed;
       Payment.new_verified_at := verified_at;
       Payment.new_transaction_id := opt_toString data_id |} ;;
  when updateError (console_error "Failed to update payment") ;;
  when (is_str data_status "success") (create_subscription reference payment).

(** What follows the polling loop, on its last response. *)
Definition settle_verification (reference : string) (ok : bool) (paystackData : JsVal)
  : M Response :=
  envelope_status <- lift (get paystackData "status") ;;
  if negb ok || negb (truthy envelope_status) then
    console_error "Verification failed after attempts" ;;
    console_error "Paystack response" ;;
    message <- lift (get paystackData "message") ;;
    ret {| status := 400;
           payload := BVerifyFailed (or_else message (JStr "Failed to verify payment"))
                                    paystackData |}
  else
    paymentData <- lift (get paystackData "data") ;;
    data_reference <- lift (get paymentData "reference") ;;
    data_amount <- lift (get paymentData "amount") ;;
    data_status <- lift (get paymentData "status") ;;
    ' (found, fetchError) <- select_payment reference ;;
    match found, fetchError with
    | Some payment, false =>
        confirm_payment reference paymentData data_status payment ;;
        paid_at <- lift (get paymentData "paid_at") ;;
        ret {| status := 200;
               payload := BVerified data_status data_amount data_reference paid_at |}
    | _, _ =>
        console_error "Payment record not found" ;;
        console_error ("Reference: " ++ reference) ;;
        console_error "This means payment was not initialized properly!" ;;
        ret {| status := 404;
               payload := BPaymentNotFound
                            "Payment record not found. Please contact support."
                            reference |}
    end.

Definition handle_verify (path : string) : M Response :=
  let reference := verify_reference path in
  if reference =? "" then
    console_error "No reference provided" ;;
    ret {| status := 400; payload := BError "Reference required" |}
  else
    match secret_key (paystackSecretKey env) with
    | None =>
        console_error "PAYSTACK_SECRET_KEY not set!" ;;
        ret {| status := 500; payload := BError "Payment gateway not configured" |}
    | Some _ =>
        ' (attempts, last) <- verify_loop 3 reference 0 None ;;
        match last with
        | None => throw "Cannot read properties of null (reading 'ok')"
        | Some (ok, paystackData) => settle_verification reference ok paystackData
        end
    end.

(** *** [/paystack/webhook] *)

(** The end date of the webhook path: whatever is not monthly gets a year. *)
Definition webhook_end_date (billing_cycle : string) (endDate : Z) : Z :=
  if billing_cycle =? "monthly"
  then setMonth endDate (getMonth endDate + 1)
  else setFullYear endDate (getFullYear endDate + 1).

(** [if (event.event === 'charge.success') { ... }] *)
Definition process_charge (paymentData : JsVal) : M unit :=
  reference <- lift (get paymentData "reference") ;;
  ' (found, _) <- select_payment (to_String reference) ;;
  match found with
  | Some payment =>
    verified_at <- new_Date ;;
    data_id <- lift (get paymentData "id") ;;
    update_payment (to_String reference)
      {| Payment.new_status := completed;
         Payment.new_verified_at := verified_at;
         Payment.new_transaction_id := opt_toString data_id |} ;;
    startDate <- new_Date ;;
    endDate0 <- new_Date ;;
    let endDate := webhook_end_date (Payment.billing_cycle payment) endDate0 in
    ' (_, upsertError) <- upsert
      {| Subscription.organization_id := Payment.organization_id payment;
         Subscription.plan_id := Payment.plan_id payment;
         Subscription.billing_cycle := Payment.billing_cycle payment;
         Subscription.status := "active";
         Subscription.start_date := startDate;
         Subscription.end_date := endDate;
         Subscription.amount := Payment.amount payment;
         Subscription.payment_reference := reference;
         Subscription.provider := "paystack" |} ;;
    when upsertError (console_error "Failed to create subscription")
  | None => console_error ("Payment record not found: " ++ to_String reference)
  end.

Definition handle_webhook (req : Request) : M Response :=
  match secret_key (paystackSecretKey env) with
  | None =>
    console_error "PAYSTACK_SECRET_KEY not set!" ;;
    ret {| status := 500; payload := BError "Not configured" |}
  | Some key =>
    let signature := x_paystack_signature req in
    let hash := createHmacSha512 key (body req) in
    if differs hash signature then
      console_error "Invalid webhook signature" ;;
      ret {| status := 401; payload := BError "Invalid signature" |}
    else
      event <- lift (JSON_parse (body req)) ;;
      event_type <- lift (get event "event") ;;
      event_data <- lift (get event "data") ;;
      lift (opt_get event_data "reference") ;;
      when (is_str event_type "charge.success") (process_charge event_data) ;;
      ret {| status := 200; payload := BAck |}
  end.

(** *** The router *)

(** [/paystack/initialize] creates the pending payment row; it is no part
    of the confirmation and is left to the caller of this section. *)
Variable handle_initialize : Request -> M Response.

Inductive Route : Type :=
| RPreflight | RHealth | RInitialize | RVerify | RWebhook | RNotFound.

Definition route (req : Request) : Route :=
  if method req =? "OPTIONS" then RPreflight
  else if endsWith "/payments-simple" (path req)
          || endsWith "/payments-simple/" (path req) then RHealth
  else if includes "/paystack/initialize" (path req) && (method req =? "POST")
       then RInitialize
  else if includes "/paystack/verify/" (path req) && (method req =? "GET")
       then RVerify
  else if includes "/paystack/webhook" (path req) && (method req =? "POST")
       then RWebhook
  else RNotFound.

(** The body of the [try] block of [Deno.serve]. *)
Definition dispatch (req : Request) : M Response :=
  match route req with
  | RPreflight => ret {| status := 200; payload := BText "ok" |}
  | RHealth =>
      timestamp <- new_Date ;;
      ret {| status := 200; payload := BHealth timestamp |}
  | RInitialize => handle_initialize req
  | RVerify => handle_verify (path req)
  | RWebhook => handle_webhook req
  | RNotFound =>
      timestamp <- new_Date ;;
      ret {| status := 404; payload := BRouteNotFound (path req) timestamp |}
  end.

(** [Deno.serve(async (req) => { try { ... } catch (error) { ... } })]:
    an exception that reaches the outer [catch] is answered with 500; what
    was written before it stays written. *)
Definition handler (req : Request) (s : St) : Response * St :=
  match dispatch req s with
  | (Val response, s') => (response, s')
  | (Thrown message, s') =>
      match (console_error ("Edge function error: " ++ message) ;;
             console_error "Stack" ;;
             new_Date) s' with
      | (Val timestamp, s'') =>
          ({| status := 500; payload := BException message timestamp |}, s'')
      | (Thrown _, s'') =>
          ({| status := 500; payload := BException message 0 |}, s'')
      end
  end.

(** One request served against the tables [d]: the response, and the state
    it leaves. *)
Definition serve (req : Request) (d : Db) : Response * St := handler req (start d).

End Handlers.

(** Requests served one after the other, each in its own surroundings: the
    tables after the last one. *)
Definition serve_all (createHmacSha512 : string -> string -> string)
    (JSON_parse : string -> Res JsVal) (handle_initialize : Request -> M Response)
    (runs : list (Env * Request)) (d : Db) : Db :=
  fold_left
    (fun d run =>
       db (snd (serve createHmacSha512 JSON_parse (fst run) handle_initialize (snd run) d)))
    runs d.

End Reconciler.

(** ** The polling loop, without the state: what it computes *)
Module Polling.
Import Js Store Reconciler.

(** A response the loop can read: [fetch] and [.json()] did not throw and
    the body is neither [null] nor [undefined]. *)
Definition readable (r : Res (bool * JsVal)) : Prop :=
  exists ok body, r = Val (ok, body) /\ nullish body = false.

(** The response is a terminal success: the envelope is OK and the
    transaction's own status is ['success']. *)
Definition response_success (r : bool * JsVal) : bool :=
  match get (snd r) "data", get (snd r) "status" with
  | Val data, Val envelope_status =>
      match opt_get data "status" with
      | Val data_status => verified_success (fst r) envelope_status data_status
      | Thrown _ => false
      end
  | _, _ => false
  end.

(** The envelope test after the loop:
    [!(!paystackResponse.ok || !paystackData.status)]. *)
Definition envelope_ok (r : bool * JsVal) : bool :=
  match get (snd r) "status" with
  | Val envelope_status => fst r && truthy envelope_status
  | Thrown _ => false
  end.

(** One attempt: the response and whether it ends the loop. *)
Definition attempt (env : Env) (reference : string) (k : nat)
  : Res ((bool * JsVal) * bool) :=
  match paystack_verify env reference k with
  | Thrown e => Thrown e
  | Val r =>
      match get (snd r) "data" with
      | Thrown e => Thrown e
      | Val _ => Val (r, response_success r)
      end
  end.

(** The attempts in order: the number of the last one and its response, or
    the exception of the first attempt that throws. *)
Definition poll (env : Env) (reference : string) : Res (nat * (bool * JsVal)) :=
  match attempt env reference 1 with
  | Thrown e => Thrown e
  | Val (r, true) => Val (1, r)
  | Val (_, false) =>
      match attempt env reference 2 with
      | Thrown e => Thrown e
      | Val (r, true) => Val (2, r)
      | Val (_, false) =>
          match attempt env reference 3 with
          | Thrown e => Thrown e
          | Val (r, _) => Val (3, r)
          end
      end
  end.

(** How many times the provider is called. *)
Definition fetches (env : Env) (reference : string) : nat :=
  match attempt env reference 1 with
  | Val (_, false) =>
      match attempt env reference 2 with
      | Val (_, false) => 3
      | _ => 2
      end
  | _ => 1
  end.

(** The calls and waits of [n] attempts. *)
Fixpoint polling_trace (reference : string) (n : nat) : list Event :=
  match n with
  | O => []
  | S O => [EvFetchVerify reference 1]
  | S m => polling_trace reference m ++ [EvSleep 2000; EvFetchVerify reference (S m)]
  end.

Definition log (s : St) (events : list Event) : St :=
  {| db := db s; ticks := ticks s; trace := trace s ++ events |}.

End Polling.

(** ** What a confirmation writes *)
Module Outcome.
Import Js JsDate Store Reconciler.

(** The end of the period on the synchronous path: a month for
    ['monthly'], a year for ['yearly'], a month for anything else. *)
Definition period_end (billing_cycle : string) (t : Z) : Z :=
  if billing_cycle =? "monthly" then setMonth t (getMonth t + 1)
  else if billing_cycle =? "yearly" then setFullYear t (getFullYear t + 1)
  else setMonth t (getMonth t + 1).

(** The [console.error] lines of the synchronous path for a billing cycle
    it does not know. *)
Definition cycle_warnings (billing_cycle : string) : list Event :=
  if (billing_cycle =? "monthly") || (billing_cycle =? "yearly") then []
  else [EvConsoleError ("UNKNOWN BILLING CYCLE: " ++ billing_cycle);
        EvConsoleError "Defaulting to monthly"].

(** The row a confirmation upserts when its first clock reading after the
    payment update is number [tick]: the start is that reading, the end is
    computed from the next one. *)
Definition subscription_row (period : string -> Z -> Z) (env : Env)
    (reference : JsVal) (payment : Payment.row) (tick : nat) : Subscription.row :=
  {| Subscription.organization_id := Payment.organization_id payment;
     Subscription.plan_id := Payment.plan_id payment;
     Subscription.billing_cycle := Payment.billing_cycle payment;
     Subscription.status := "active";
     Subscription.start_date := clock env tick;
     Subscription.end_date := period (Payment.billing_cycle payment) (clock env (S tick));
     Subscription.amount := Payment.amount payment;
     Subscription.payment_reference := reference;
     Subscription.provider := "paystack" |}.

Definition verify_subscription (env : Env) (reference : string) :=
  subscription_row period_end env (JStr reference).

Definition webhook_subscription (env : Env) (reference : JsVal) :=
  subscription_row webhook_end_date env reference.

(** The update of the payment row on the synchronous path, from the
    provider's transaction, and on the webhook path, from the event. *)
Definition verify_patch (env : Env) (data_status data_id : JsVal) (tick : nat)
  : Payment.patch :=
  {| Payment.new_status := if is_str data_status "success" then completed else failed;
     Payment.new_verified_at := clock env tick;
     Payment.new_transaction_id := opt_toString data_id |}.

Definition webhook_patch (env : Env) (data_id : JsVal) (tick : nat) : Payment.patch :=
  {| Payment.new_status := completed;
     Payment.new_verified_at := clock env tick;
     Payment.new_transaction_id := opt_toString data_id |}.

(** The tables after a statement that may have failed. *)
Definition after_update (env : Env) (reference : string) (u : Payment.patch) (d : Db) : Db :=
  match update_fault env with
  | NoFault => update_payments reference u d
  | _ => d
  end.

Definition after_sync (env : Env) (payment : Payment.row) (endDate : Z) (d : Db) : Db :=
  match organization_fault env with
  | NoFault =>
      update_organizations (Payment.organization_id payment)
        {| Organization.new_subscription_status := "active";
           Organization.new_subscription_plan := Payment.plan_id payment;
           Organization.new_subscription_end_date := endDate |} d
  | _ => d
  end.

Definition update_errors (env : Env) : list Event :=
  match update_fault env with
  | ErrorReturned => [EvConsoleError "Failed to update payment"]
  | _ => []
  end.

Definition sync_errors (env : Env) : list Event :=
  match organization_fault env with
  | NoFault => []
  | ErrorReturned =>
      [EvConsoleError "Failed to update organization";
       EvConsoleError "Subscription is still active, org table just not synced yet"]
  | ExceptionThrown =>
      [EvConsoleError "Exception updating organization";
       EvConsoleError "This is non-critical, subscription is still active"]
  end.

(** How many statements of a trace write to [organizations] and to
    [subscriptions]. *)
Definition organization_updates (events : list Event) : nat :=
  length (filter (fun e => match e with EvUpdateOrganization _ => true | _ => false end)
                 events).

Definition subscription_upserts (events : list Event) : nat :=
  length (filter (fun e => match e with EvUpsertSubscription _ => true | _ => false end)
                 events).

(** [v.p] on a value that is neither [undefined] nor [null]. *)
Definition field (v : JsVal) (p : string) : JsVal :=
  match get v p with
  | Val w => w
  | Thrown _ => JUndefined
  end.

(** The synchronous request [req] is for [reference], and the polling loop
    ends on a response with an OK envelope that carries the transaction
    [paymentData]. *)
Definition verified_with (env : Env) (req : Request) (reference : string)
    (paymentData : JsVal) : Prop :=
  route req = RVerify
  /\ verify_reference (path req) = reference
  /\ reference <> ""
  /\ secret_key (paystackSecretKey env) <> None
  /\ exists n ok paystackData,
       Polling.poll env reference = Val (n, (ok, paystackData))
       /\ Polling.envelope_ok (ok, paystackData) = true
       /\ get paystackData "data" = Val paymentData
       /\ nullish paymentData = false.

(** The webhook request [req] is correctly signed and its body is a
    ['charge.success'] event that carries the transaction [paymentData]. *)
Definition notified_of (createHmacSha512 : string -> string -> string)
    (JSON_parse : string -> Res JsVal) (env : Env) (req : Request)
    (paymentData : JsVal) : Prop :=
  route req = RWebhook
  /\ (exists key, secret_key (paystackSecretKey env) = Some key
                  /\ x_paystack_signature req = Some (createHmacSha512 key (body req)))
  /\ exists event,
       JSON_parse (body req) = Val event
       /\ get event "event" = Val (JStr "charge.success")
       /\ get event "data" = Val paymentData
       /\ nullish paymentData = false.

(** [req] is a confirmation that completes on the tables [d], and [row] is
    the subscription row it upserts: a synchronous verification of a
    successful transaction, or a signed ['charge.success'] event, for a
    reference with exactly one payment row. *)
Inductive confirms (createHmacSha512 : string -> string -> string)
    (JSON_parse : string -> Res JsVal) (env : Env) (req : Request) (d : Db)
  : Subscription.row -> Prop :=
| confirms_verify reference paymentData payment :
    verified_with env req reference paymentData ->
    is_str (field paymentData "status") "success" = true ->
    single (payments_with reference d) = Some payment ->
    select_fault env = NoFault ->
    update_fault env <> ExceptionThrown ->
    upsert_fault env = NoFault ->
    confirms createHmacSha512 JSON_parse env req d
             (verify_subscription env reference payment 1)
| confirms_webhook paymentData payment :
    notified_of createHmacSha512 JSON_parse env req paymentData ->
    single (payments_with (to_String (field paymentData "reference")) d) = Some payment ->
    select_fault env = NoFault ->
    update_fault env <> ExceptionThrown ->
    upsert_fault env = NoFault ->
    confirms createHmacSha512 JSON_parse env req d
             (webhook_subscription env (field paymentData "reference") payment 1).

(** [c] keeps the property [P] of the tables, however it ends. *)
Definition preserves {A : Type} (P : Db -> Prop) (c : M A) : Prop :=
  forall s, P (db s) -> P (db (snd (c s))).

(** The statements the handlers send to the tables keep [P]. *)
Definition payments_stable (P : Db -> Prop) : Prop :=
  forall r u d, P d -> P (update_payments r u d).

Definition subscriptions_stable (P : Db -> Prop) : Prop :=
  forall row d, P d -> P (upsert_subscription row d).

Definition organizations_stable (P : Db -> Prop) : Prop :=
  forall org u d, P d -> P (update_organizations org u d).

End Outcome.

(** ** Concrete requests and tables, for the examples below *)
Module Scenario.
Import Js JsDate Store Reconciler.
Local Open Scope Z_scope.

(** A stand-in for the HMAC digest and for [JSON.parse] on the bodies of
    the examples; the theorems hold for every such pair of functions. *)
Definition hmac (key message : string) : string := (key ++ "|" ++ message)%string.

Definition transaction (status : string) : JsVal :=
  JObj [("id", JNum 9001); ("status", JStr status); ("reference", JStr "R1");
        ("amount", JNum 500000); ("paid_at", JStr "2024-01-15T10:29:58.000Z")].

Definition charge_success_body : string := "charge.success R1 9001".
Definition charge_failed_body : string := "charge.failed R1 9001".

Definition parse (text : string) : Res JsVal :=
  if (text =? charge_success_body)%string
  then Val (JObj [("event", JStr "charge.success"); ("data", transaction "success")])
  else if (text =? charge_failed_body)%string
  then Val (JObj [("event", JStr "charge.failed"); ("data", transaction "failed")])
  else Thrown "Unexpected token".

Definition no_initialize (req : Request) : M Response := throw "initialize".

(** The provider's answers: an OK envelope around a transaction, and a
    failed envelope. *)
Definition envelope (status : string) : bool * JsVal :=
  (true, JObj [("status", JBool true); ("message", JStr "Verification successful");
               ("data", transaction status)]).

Definition failed_envelope : bool * JsVal :=
  (false, JObj [("status", JBool false);
                ("message", JStr "Transaction reference not found")]).

Definition payment_R1 (cycle : string) (st : PaymentStatus) : Payment.row :=
  {| Payment.reference := "R1";
     Payment.provider := "paystack";
     Payment.organization_id := "org-1";
     Payment.user_id := "user-1";
     Payment.plan_id := "standard";
     Payment.billing_cycle := cycle;
     Payment.amount := 500000;
     Payment.currency := "NGN";
     Payment.status := st;
     Payment.verified_at := None;
     Payment.transaction_id := None |}.

Definition organization_1 : Organization.row :=
  {| Organization.id := "org-1";
     Organization.subscription_status := Some "trial";
     Organization.subscription_plan := None;
     Organization.subscription_end_date := None;
     Organization.trial_start_date := Some 1704067200000 |}.

(** One payment for reference R1, no subscription yet. *)
Definition tables (cycle : string) (st : PaymentStatus) : Db :=
  {| payments := [payment_R1 cycle st];
     subscriptions := [];
     organizations := [organization_1] |}.


(** 2024-01-15T10:30:00.000Z and one hour later; each clock advances by a
    millisecond per reading. *)
Definition morning : Z := 1705314600000.
Definition later : Z := 1705318200000.

Definition surroundings (now : Z) (answer : Res (bool * JsVal)) (org : Fault) : Env :=
  {| paystackSecretKey := Some "sk_test";
     clock := fun k => now + Z.of_nat k;
     paystack_verify := fun _ _ => answer;
     select_fault := NoFault;
     update_fault := NoFault;
     upsert_fault := NoFault;
     organization_fault := org |}.

Definition verify_R1 : Request :=
  {| method := "GET";
     path := "/functions/v1/payments-simple/paystack/verify/R1";
     authorization := None;
     x_paystack_signature := None;
     body := "" |}.

Definition webhook (text : string) (signature : option string) : Request :=
  {| method := "POST";
     path := "/functions/v1/payments-simple/paystack/webhook";
     authorization := None;
     x_paystack_signature := signature;
     body := text |}.

Definition signed (text : string) : Request := webhook text (Some (hmac "sk_test" text)).

End Scenario.

(** ** The calendar behind [setMonth] and [setFullYear] *)
Module DateFacts.
Import JsDate.
Local Open Scope Z_scope.

Lemma DayFromYear_step y : DayFromYear (y + 1) = DayFromYear y + DaysInYear y.
Proof.
  unfold DayFromYear, DaysInYear.
  destruct (y mod 4 =? 0) eqn:E4; destruct (y mod 100 =? 0) eqn:E100;
    destruct (y mod 400 =? 0) eqn:E400; cbn [negb];
    rewrite ?Z.eqb_eq, ?Z.eqb_neq in *;
    Z.div_mod_to_equations; lia.
Qed.

Lemma DaysInYear_cases y : DaysInYear y = 365 + leap y /\ (leap y = 0 \/ leap y = 1).
Proof.
  unfold leap, DaysInYear.
  destruct (negb (y mod 4 =? 0)), (negb (y mod 100 =? 0)), (negb (y mod 400 =? 0));
    cbn; lia.
Qed.

Lemma DayFromYear_lt y1 y2 : y1 < y2 -> DayFromYear y1 < DayFromYear y2.
Proof. intros H. unfold DayFromYear. Z.div_mod_to_equations. lia. Qed.

Lemma YearFromDay_spec d :
  DayFromYear (YearFromDay d) <= d < DayFromYear (YearFromDay d + 1).
Proof.
  unfold YearFromDay.
  destruct (d <? DayFromYear (1970 + d * 400 / 146097)) eqn:E1.
  - apply Z.ltb_lt in E1.
    replace (1970 + d * 400 / 146097 - 1 + 1) with (1970 + d * 400 / 146097) by lia.
    split; [|exact E1]. unfold DayFromYear in *. Z.div_mod_to_equations. lia.
  - apply Z.ltb_ge in E1.
    destruct (DayFromYear (1970 + d * 400 / 146097 + 1) <=? d) eqn:E2.
    + apply Z.leb_le in E2. split; [exact E2|].
      unfold DayFromYear in *. Z.div_mod_to_equations. lia.
    + apply Z.leb_gt in E2. split; assumption.
Qed.

Lemma YearFromDay_unique d y :
  DayFromYear y <= d < DayFromYear (y + 1) -> YearFromDay d = y.
Proof.
  intros H. pose proof (YearFromDay_spec d) as S.
  destruct (Z.lt_trichotomy (YearFromDay d) y) as [L|[E|G]]; [|exact E|].
  - assert (DayFromYear (YearFromDay d + 1) <= DayFromYear y).
    { destruct (Z.eq_dec (YearFromDay d + 1) y) as [->|N]; [lia|].
      apply Z.lt_le_incl, DayFromYear_lt. lia. }
    lia.
  - assert (DayFromYear (y + 1) <= DayFromYear (YearFromDay d)).
    { destruct (Z.eq_dec (y + 1) (YearFromDay d)) as [->|N]; [lia|].
      apply Z.lt_le_incl, DayFromYear_lt. lia. }
    lia.
Qed.

Lemma Day_MakeDate day tod :
  0 <= tod < msPerDay ->
  Day (MakeDate day tod) = day /\ TimeWithinDay (MakeDate day tod) = tod.
Proof.
  unfold Day, TimeWithinDay, MakeDate, msPerDay. intros H.
  split; Z.div_mod_to_equations; lia.
Qed.

Lemma MakeDate_Day t : MakeDate (Day t) (TimeWithinDay t) = t /\ 0 <= TimeWithinDay t < msPerDay.
Proof.
  unfold Day, TimeWithinDay, MakeDate, msPerDay. split; Z.div_mod_to_equations; lia.
Qed.

Ltac month_cases m :=
  let H := fresh in
  assert (H : m = 0 \/ m = 1 \/ m = 2 \/ m = 3 \/ m = 4 \/ m = 5 \/ m = 6
              \/ m = 7 \/ m = 8 \/ m = 9 \/ m = 10 \/ m = 11) by lia;
  repeat (destruct H as [H|H]); subst m.

(** Reading back the fields of a calendar date. *)
Lemma decode_MakeDay y m dt tod :
  calendar_date y m dt -> 0 <= tod < msPerDay ->
  let t := MakeDate (MakeDay y m dt) tod in
  YearFromTime t = y /\ MonthFromTime t = m /\ DateFromTime t = dt
  /\ TimeWithinDay t = tod.
Proof.
  intros [Hm Hd] Htod t. subst t.
  destruct (Day_MakeDate (MakeDay y m dt) tod Htod) as [HD HT].
  destruct (DaysInYear_cases y) as [HY HL].
  assert (Hmk : MakeDay y m dt = DayFromYear y + DaysBeforeMonth m (leap y) + dt - 1).
  { unfold MakeDay. rewrite (Z.div_small m 12), (Z.mod_small m 12) by lia.
    now rewrite Z.add_0_r. }
  assert (Hy : YearFromTime (MakeDate (MakeDay y m dt) tod) = y).
  { unfold YearFromTime. rewrite HD. apply YearFromDay_unique.
    rewrite DayFromYear_step, Hmk, HY.
    month_cases m; cbn [DaysBeforeMonth DaysInMonth] in *; lia. }
  assert (Hw : DayWithinYear (MakeDate (MakeDay y m dt) tod)
               = DaysBeforeMonth m (leap y) + dt - 1).
  { unfold DayWithinYear. rewrite Hy, HD, Hmk. lia. }
  assert (Hmo : MonthFromTime (MakeDate (MakeDay y m dt) tod) = m).
  { unfold MonthFromTime, InLeapYear. rewrite Hw, Hy.
    month_cases m; cbn [DaysBeforeMonth DaysInMonth] in *;
      repeat match goal with
      | |- context [?a <? ?b] => destruct (Z.ltb_spec a b); try lia
      end; reflexivity. }
  repeat split; auto.
  unfold DateFromTime, InLeapYear. rewrite Hmo, Hw, Hy.
  month_cases m; cbn [DaysBeforeMonth]; lia.
Qed.

(** Every time value is a calendar date and a time within the day. *)
Lemma encode_MakeDay t :
  calendar_date (YearFromTime t) (MonthFromTime t) (DateFromTime t)
  /\ MakeDate (MakeDay (YearFromTime t) (MonthFromTime t) (DateFromTime t))
              (TimeWithinDay t) = t.
Proof.
  destruct (MakeDate_Day t) as [Ht Htod].
  pose proof (YearFromDay_spec (Day t)) as S. fold (YearFromTime t) in S.
  rewrite DayFromYear_step in S.
  destruct (DaysInYear_cases (YearFromTime t)) as [HY HL].
  assert (Hw : 0 <= DayWithinYear t < 365 + leap (YearFromTime t))
    by (unfold DayWithinYear; lia).
  assert (K : 0 <= MonthFromTime t <= 11
              /\ 1 <= DateFromTime t <= DaysInMonth (MonthFromTime t) (leap (YearFromTime t))
              /\ DaysBeforeMonth (MonthFromTime t) (leap (YearFromTime t))
                 + DateFromTime t - 1 = DayWithinYear t).
  { unfold DateFromTime, MonthFromTime, InLeapYear.
    repeat match goal with
    | |- context [?a <? ?b] => destruct (Z.ltb_spec a b)
    end; cbn [DaysInMonth DaysBeforeMonth]; lia. }
  destruct K as (Hm & Hd & Hsum). split; [split; assumption|].
  transitivity (MakeDate (Day t) (TimeWithinDay t)); [|exact Ht]. f_equal.
  unfold MakeDay. rewrite (Z.div_small _ 12), (Z.mod_small _ 12) by lia.
  rewrite Z.add_0_r. unfold DayWithinYear in Hsum. lia.
Qed.

(** [d.setMonth(d.getMonth() + 1)] on a date up to the 28th: the next
    month, the year after in December, the same day of the month and the
    same time of day. *)
Lemma setMonth_next_month t :
  DateFromTime t <= 28 ->
  let t' := setMonth t (getMonth t + 1) in
  YearFromTime t' = YearFromTime t + (MonthFromTime t + 1) / 12
  /\ MonthFromTime t' = (MonthFromTime t + 1) mod 12
  /\ DateFromTime t' = DateFromTime t
  /\ TimeWithinDay t' = TimeWithinDay t.
Proof.
  intros H28 t'. subst t'. unfold setMonth, getMonth.
  destruct (encode_MakeDay t) as [[Hm Hd] _].
  destruct (MakeDate_Day t) as [_ Htod].
  set (y := YearFromTime t) in *. set (m := MonthFromTime t) in *.
  set (dt := DateFromTime t) in *.
  assert (E : MakeDay y (m + 1) dt = MakeDay (y + (m + 1) / 12) ((m + 1) mod 12) dt).
  { unfold MakeDay. rewrite Z.mod_mod by lia.
    rewrite (Z.div_small ((m + 1) mod 12) 12) by (apply Z.mod_pos_bound; lia).
    now rewrite Z.add_0_r. }
  rewrite E. apply decode_MakeDay; [|exact Htod].
  assert (Hmo : 0 <= (m + 1) mod 12 <= 11) by (pose proof (Z.mod_pos_bound (m + 1) 12); lia).
  split; [exact Hmo|].
  destruct (DaysInYear_cases (y + (m + 1) / 12)) as [_ HL].
  revert Hmo. generalize ((m + 1) mod 12). intros m' Hm'.
  month_cases m'; cbn [DaysInMonth]; lia.
Qed.

(** [d.setFullYear(d.getFullYear() + 1)] on any date but the 29th of
    February: the same day and time a year later. *)
Lemma setFullYear_next_year t :
  ~ (MonthFromTime t = 1 /\ DateFromTime t = 29) ->
  let t' := setFullYear t (getFullYear t + 1) in
  YearFromTime t' = YearFromTime t + 1
  /\ MonthFromTime t' = MonthFromTime t
  /\ DateFromTime t' = DateFromTime t
  /\ TimeWithinDay t' = TimeWithinDay t.
Proof.
  intros Hfeb t'. subst t'. unfold setFullYear, getFullYear.
  destruct (encode_MakeDay t) as [[Hm Hd] _].
  destruct (MakeDate_Day t) as [_ Htod].
  apply decode_MakeDay; [|exact Htod].
  split; [exact Hm|].
  destruct (DaysInYear_cases (YearFromTime t)) as [_ HL].
  destruct (DaysInYear_cases (YearFromTime t + 1)) as [_ HL'].
  revert Hfeb Hd. generalize (MonthFromTime t) (DateFromTime t) Hm.
  intros m dt Hm' Hfeb Hd.
  month_cases m; cbn [DaysInMonth] in *; lia.
Qed.

End DateFacts.

(** ** Properties *)
Import Js JsDate Store Reconciler Polling Outcome.
Local Open Scope js_scope.

Lemma opt_get_total v p : exists w, opt_get v p = Val w.
Proof. unfold opt_get, get; destruct v; simpl; eauto. Qed.

(** Reading a property throws on [null] and [undefined] and on nothing
    else, whatever the property. *)
Lemma get_cases v :
  (exists e, forall p, get v p = Thrown (e p))
  \/ (nullish v = false /\ forall p, exists w, get v p = Val w).
Proof.
  destruct v; simpl;
    try (right; split; [reflexivity | intros p; eexists; reflexivity]);
    left; eexists (fun p => _); intros p; reflexivity.
Qed.

Lemma get_defined v p w : get v p = Val w -> forall q, exists u, get v q = Val u.
Proof.
  intros H q. destruct (get_cases v) as [[e He]|[_ Hv]]; [|apply Hv].
  rewrite He in H. discriminate.
Qed.

Lemma get_not_nullish v :
  nullish v = false -> forall p, exists w, get v p = Val w.
Proof. destruct v; simpl; intros H p; try discriminate; eauto. Qed.

Lemma get_field v p : nullish v = false -> get v p = Val (field v p).
Proof.
  intros H. unfold field. destruct (get_not_nullish v H p) as [w ->]. reflexivity.
Qed.

Lemma differs_spec hash signature :
  differs hash signature = true <-> signature <> Some hash.
Proof.
  unfold differs. destruct signature as [sg|]; [|split; [discriminate|reflexivity]].
  destruct (String.eqb_spec hash sg); simpl; split; intros H;
    congruence.
Qed.

Lemma log_log s a b : log (log s a) b = log s (a ++ b).
Proof. unfold log. cbn [db ticks trace]. now rewrite <- app_assoc. Qed.

Ltac read_body b :=
  let H := fresh "H" in let e := fresh "e" in let v := fresh "v" in let Hv := fresh "Hv" in
  destruct (get_cases b) as [[e H]|[_ H]];
  [ rewrite !H
  | destruct (H "data") as [v Hv]; rewrite Hv;
    destruct (opt_get_total v "status") as [? ->];
    destruct (H "status") as [? ->]; clear H ].

Ltac run := cbn [verify_loop Nat.ltb Nat.leb bind emit lift ret when sleep
                 polling_trace app fst snd db ticks trace].
Ltac done_trace := run; rewrite <- ?app_assoc; reflexivity.

(** The loop computes [poll] and leaves the calls and waits of the attempts
    it made in the trace; it touches neither the tables nor the clock. *)
Lemma verify_loop_poll env reference s :
  verify_loop env 3 reference 0 None s =
    (match poll env reference with
     | Val (n, r) => Val (n, Some r)
     | Thrown e => Thrown e
     end,
     log s (polling_trace reference (fetches env reference))).
Proof.
  unfold poll, fetches, attempt, response_success, log. run.
  destruct (paystack_verify env reference 1) as [[ok1 b1]|e1]; run; [|done_trace].
  read_body b1; [done_trace|].
  destruct (verified_success ok1 _ _); [done_trace|]. run.
  destruct (paystack_verify env reference 2) as [[ok2 b2]|e2]; run; [|done_trace].
  read_body b2; [done_trace|].
  destruct (verified_success ok2 _ _); [done_trace|]. run.
  destruct (paystack_verify env reference 3) as [[ok3 b3]|e3]; run; [|done_trace].
  read_body b3; [done_trace|].
  destruct (verified_success ok3 _ _); done_trace.
Qed.

Lemma attempt_readable env reference k :
  readable (paystack_verify env reference k) ->
  exists r, paystack_verify env reference k = Val r
            /\ attempt env reference k = Val (r, response_success r).
Proof.
  intros (ok & body & Hr & Hb). exists (ok, body). split; [exact Hr|].
  unfold attempt. rewrite Hr. cbn [snd].
  destruct (get_cases body) as [[e He]|[_ Hv]].
  - specialize (He "data"). destruct body; discriminate.
  - destruct (Hv "data") as [w ->]. reflexivity.
Qed.

(** C5, as amended: with responses it can read, the loop calls the provider
    [n] times, 1 <= n <= 3, waits 2000 ms between two calls and nowhere
    else, and returns the response of call [n]; it stops before the third
    call only on a terminal success, and every response before the last one,
    whatever it reports, was followed by another call. *)
Theorem verify_loop_bounded_polling env reference s :
  (forall k, 1 <= k <= 3 -> readable (paystack_verify env reference k)) ->
  exists n r,
    1 <= n <= 3
    /\ verify_loop env 3 reference 0 None s
       = (Val (n, Some r), log s (polling_trace reference n))
    /\ paystack_verify env reference n = Val r
    /\ (n < 3 -> response_success r = true)
    /\ (forall k, 1 <= k < n ->
        exists r', paystack_verify env reference k = Val r'
                   /\ response_success r' = false).
Proof.
  intros Hread. rewrite verify_loop_poll. unfold poll, fetches.
  destruct (attempt_readable env reference 1) as (r1 & H1 & ->); [apply Hread; lia|].
  destruct (response_success r1) eqn:S1.
  { exists 1, r1. repeat split; auto; lia. }
  destruct (attempt_readable env reference 2) as (r2 & H2 & ->); [apply Hread; lia|].
  destruct (response_success r2) eqn:S2.
  { exists 2, r2. repeat split; auto; try lia.
    intros k Hk. assert (k = 1) as -> by lia. eauto. }
  destruct (attempt_readable env reference 3) as (r3 & H3 & ->); [apply Hread; lia|].
  exists 3, r3. split; [lia|]. split.
  { destruct (response_success r3); reflexivity. }
  split; [assumption|]. split; [lia|].
  intros k Hk. assert (k = 1 \/ k = 2) as [-> | ->] by lia; eauto.
Qed.

(** *** The billing period *)

Lemma period_end_cases c t :
  period_end c t
  = if c =? "yearly" then setFullYear t (getFullYear t + 1)
    else setMonth t (getMonth t + 1).
Proof.
  unfold period_end.
  destruct (String.eqb_spec c "monthly") as [->|]; [reflexivity|].
  destruct (c =? "yearly"); reflexivity.
Qed.

Lemma webhook_end_date_cases c t :
  webhook_end_date c t
  = if c =? "monthly" then setMonth t (getMonth t + 1)
    else setFullYear t (getFullYear t + 1).
Proof. reflexivity. Qed.

(** On the synchronous path a cycle that is not ['yearly'] ends, for a
    reading up to the 28th of its month, on the same day and time of the
    next month. *)
Lemma period_end_month c t :
  c <> "yearly" ->
  (JsDate.DateFromTime t <= 28)%Z ->
  JsDate.MonthFromTime (period_end c t) = ((JsDate.MonthFromTime t + 1) mod 12)%Z
  /\ JsDate.DateFromTime (period_end c t) = JsDate.DateFromTime t
  /\ JsDate.TimeWithinDay (period_end c t) = JsDate.TimeWithinDay t.
Proof.
  intros Hc H28. rewrite period_end_cases.
  apply String.eqb_neq in Hc. rewrite Hc.
  destruct (DateFacts.setMonth_next_month t H28) as (_ & Hm & Hd & Ht).
  auto.
Qed.

(** On the webhook path a cycle that is not ['monthly'] ends a year after
    the reading (the 29th of February apart). *)
Lemma webhook_end_date_year c t :
  c <> "monthly" ->
  ~ (JsDate.MonthFromTime t = 1 /\ JsDate.DateFromTime t = 29)%Z ->
  JsDate.YearFromTime (webhook_end_date c t) = (JsDate.YearFromTime t + 1)%Z
  /\ JsDate.MonthFromTime (webhook_end_date c t) = JsDate.MonthFromTime t
  /\ JsDate.DateFromTime (webhook_end_date c t) = JsDate.DateFromTime t.
Proof.
  intros Hc Hfeb. rewrite webhook_end_date_cases.
  apply String.eqb_neq in Hc. rewrite Hc.
  destruct (DateFacts.setFullYear_next_year t Hfeb) as (Hy & Hm & Hd & _).
  auto.
Qed.

Ltac exec :=
  repeat progress
    (unfold select_payment, update_payment, upsert, update_organization,
            console_error, sleep, when, new_Date, modify_db, read_db, emit,
            try_catch, throw, lift, ret, bind;
     cbn beta iota zeta delta [fst snd db ticks trace start log app]).

Section Properties.

Variable createHmacSha512 : string -> string -> string.
Variable JSON_parse : string -> Res JsVal.
Variable handle_initialize : Request -> M Response.

Local Notation "'serving' env req d" :=
  (serve createHmacSha512 JSON_parse env handle_initialize req d)
  (at level 10, env at level 9, req at level 9, d at level 9).

(** C6: a webhook whose signature header is not the HMAC-SHA-512 digest of
    the raw body under the configured secret is answered with 401; the
    tables are as they were, and the request has sent them no statement:
    its whole trace is the one [console.error] line. *)
Theorem webhook_rejects_bad_signature env req d key :
  route req = RWebhook ->
  secret_key (paystackSecretKey env) = Some key ->
  x_paystack_signature req <> Some (createHmacSha512 key (body req)) ->
  serving env req d
  = ({| status := 401; payload := BError "Invalid signature" |},
     {| db := d; ticks := 0;
        trace := [EvConsoleError "Invalid webhook signature"] |}).
Proof.
  intros Hroute Hkey Hsig.
  unfold serve, handler, dispatch. rewrite Hroute.
  unfold handle_webhook. rewrite Hkey.
  apply differs_spec in Hsig. rewrite Hsig. reflexivity.
Qed.

Lemma differs_same hash : differs hash (Some hash) = false.
Proof. unfold differs. now rewrite String.eqb_refl. Qed.

(** C8: a webhook that passes the signature check and [JSON.parse] and whose
    event type is not ['charge.success'] is answered with 200 and leaves
    nothing behind: the tables, the clock and the trace are untouched. *)
Theorem webhook_acknowledges_other_events env req d key event event_type :
  route req = RWebhook ->
  secret_key (paystackSecretKey env) = Some key ->
  x_paystack_signature req = Some (createHmacSha512 key (body req)) ->
  JSON_parse (body req) = Val event ->
  get event "event" = Val event_type ->
  is_str event_type "charge.success" = false ->
  serving env req d
  = ({| status := 200; payload := BAck |}, start d).
Proof.
  intros Hroute Hkey Hsig Hparse Hevent Htype.
  unfold serve, handler, dispatch. rewrite Hroute.
  unfold handle_webhook. rewrite Hkey, Hsig, differs_same.
  exec. rewrite Hparse, Hevent.
  destruct (get_defined _ _ _ Hevent "data") as [event_data ->].
  destruct (opt_get_total event_data "reference") as [w ->].
  rewrite Htype. reflexivity.
Qed.


(** *** The synchronous path *)

Lemma poll_body_defined env reference n ok paystackData :
  poll env reference = Val (n, (ok, paystackData)) ->
  forall p, exists w, get paystackData p = Val w.
Proof.
  unfold poll, attempt. intros H.
  assert (G : forall k ok b flag,
    match paystack_verify env reference k with
    | Val r => match get (snd r) "data" with
               | Val _ => Val (r, response_success r)
               | Thrown e => Thrown e
               end
    | Thrown e => Thrown e
    end = Val ((ok, b), flag) -> forall p, exists w, get b p = Val w).
  { intros k ok' b flag Hk.
    destruct (paystack_verify env reference k) as [[ok'' b']|]; [|discriminate].
    cbn [snd] in Hk. destruct (get b' "data") eqn:Hd; [|discriminate].
    injection Hk as -> -> _. eapply get_defined; eassumption. }
  repeat match type of H with
  | match ?a with _ => _ end = _ =>
      let E := fresh "E" in
      destruct a as [[[? ?] []]|] eqn:E; try discriminate;
      try (injection H as <- <- <-; eapply G; eassumption)
  end.
Qed.

(** After the reference and secret checks the handler is the loop followed
    by [settle_verification] on the last response. *)
Lemma handle_verify_settles env path s key :
  verify_reference path <> "" ->
  secret_key (paystackSecretKey env) = Some key ->
  handle_verify env path s =
    let s1 := log s (polling_trace (verify_reference path)
                                   (fetches env (verify_reference path))) in
    match poll env (verify_reference path) with
    | Val (_, (ok, paystackData)) =>
        settle_verification env (verify_reference path) ok paystackData s1
    | Thrown e => (Thrown e, s1)
    end.
Proof.
  intros Href Hkey. unfold handle_verify.
  apply String.eqb_neq in Href. rewrite Href, Hkey.
  unfold bind at 1. rewrite verify_loop_poll.
  destruct (poll env (verify_reference path)) as [[n [ok b]]|e]; reflexivity.
Qed.



Lemma select_payment_found env r s payment :
  single (payments_with r (db s)) = Some payment ->
  select_fault env = NoFault ->
  select_payment env r s = (Val (Some payment, false), log s [EvSelectPayment r]).
Proof.
  intros Hone Hfault. exec. rewrite Hfault. exec. rewrite Hone. reflexivity.
Qed.

Lemma verify_end_date_run c t s :
  verify_end_date c t s = (Val (period_end c t), log s (cycle_warnings c)).
Proof.
  unfold verify_end_date, period_end, cycle_warnings, log.
  destruct (c =? "monthly"), (c =? "yearly"); exec; cbn [orb];
    rewrite <- ?app_assoc, ?app_nil_r; destruct s; reflexivity.
Qed.

(** The subscription step of the synchronous path, when the upsert
    succeeds: the row is written, and the organization follows unless its
    update fails. *)
Lemma create_subscription_run env reference payment s :
  upsert_fault env = NoFault ->
  let row := verify_subscription env reference payment (ticks s) in
  create_subscription env reference payment s
  = (Val tt,
     {| db := after_sync env payment (Subscription.end_date row)
                (upsert_subscription row (db s));
        ticks := S (S (ticks s));
        trace := trace s ++ cycle_warnings (Payment.billing_cycle payment)
                 ++ [EvUpsertSubscription (Payment.organization_id payment);
                     EvUpdateOrganization (Payment.organization_id payment)]
                 ++ sync_errors env |}).
Proof.
  intros Hups. unfold create_subscription, sync_organization.
  unfold bind at 1. unfold new_Date at 1. unfold bind at 1. unfold new_Date at 1.
  unfold bind at 1. rewrite verify_end_date_run.
  unfold after_sync, sync_errors.
  exec. rewrite Hups. exec.
  destruct (organization_fault env); exec; rewrite <- ?app_assoc; reflexivity.
Qed.


Lemma update_payment_run env r u s :
  update_fault env <> ExceptionThrown ->
  (updateError <- update_payment env r u ;;
   when updateError (console_error "Failed to update payment")) s
  = (Val tt,
     {| db := after_update env r u (db s);
        ticks := ticks s;
        trace := trace s ++ [EvUpdatePayment r] ++ update_errors env |}).
Proof.
  intros Hupd. unfold after_update, update_errors. exec.
  destruct (update_fault env); try congruence; exec;
    rewrite <- ?app_assoc; reflexivity.
Qed.

(** The synchronous path from the ledger lookup on, for the one payment row
    of the reference. *)
Lemma confirm_payment_run env reference paymentData data_status data_id payment s :
  get paymentData "id" = Val data_id ->
  update_fault env <> ExceptionThrown ->
  (is_str data_status "success" = true -> upsert_fault env = NoFault) ->
  let u := verify_patch env data_status data_id (ticks s) in
  let row := verify_subscription env reference payment (S (ticks s)) in
  confirm_payment env reference paymentData data_status payment s
  = (Val tt,
     if is_str data_status "success"
     then {| db := after_sync env payment (Subscription.end_date row)
                     (upsert_subscription row (after_update env reference u (db s)));
             ticks := S (S (S (ticks s)));
             trace := trace s ++ [EvUpdatePayment reference] ++ update_errors env
                      ++ cycle_warnings (Payment.billing_cycle payment)
                      ++ [EvUpsertSubscription (Payment.organization_id payment);
                          EvUpdateOrganization (Payment.organization_id payment)]
                      ++ sync_errors env |}
     else {| db := after_update env reference u (db s);
             ticks := S (ticks s);
             trace := trace s ++ [EvUpdatePayment reference] ++ update_errors env |}).
Proof.
  intros Hid Hupd Hups. cbv zeta. unfold verify_patch, confirm_payment.
  unfold bind at 1. unfold new_Date at 1.
  unfold bind at 1. unfold lift at 1. rewrite Hid.
  assert (R := update_payment_run env reference
                 (verify_patch env data_status data_id (ticks s))
                 {| db := db s; ticks := S (ticks s); trace := trace s |} Hupd).
  unfold bind at 1 in R. unfold bind at 1. unfold bind at 1.
  unfold verify_patch in R.
  destruct (update_payment env reference _ _) as [[updateError|e] s1] eqn:Hrun.
  2:{ discriminate R. }
  rewrite R. cbn [db ticks trace].
  destruct (is_str data_status "success") eqn:Hs; unfold when.
  - rewrite create_subscription_run by auto. cbn [db ticks trace].
    rewrite <- !app_assoc. reflexivity.
  - reflexivity.
Qed.


(** A synchronous request that finds the one payment row of its reference
    is answered with 200 and leaves what [confirm_payment] leaves. *)
Lemma verify_served env req d reference paymentData payment :
  verified_with env req reference paymentData ->
  single (payments_with reference d) = Some payment ->
  select_fault env = NoFault ->
  update_fault env <> ExceptionThrown ->
  (is_str (field paymentData "status") "success" = true -> upsert_fault env = NoFault) ->
  serving env req d
  = ({| status := 200;
        payload := BVerified (field paymentData "status") (field paymentData "amount")
                             (field paymentData "reference") (field paymentData "paid_at") |},
     snd (confirm_payment env reference paymentData (field paymentData "status") payment
            (log (start d) (polling_trace reference (fetches env reference)
                            ++ [EvSelectPayment reference])))).
Proof.
  intros (Hroute & Href & Hne & Hkey & n & ok & paystackData & Hpoll & Henv & Hdata & Hpd)
         Hone Hsel Hupd Hups.
  subst reference.
  destruct (secret_key (paystackSecretKey env)) as [key|] eqn:Hk; [clear Hkey|congruence].
  unfold serve, handler, dispatch. rewrite Hroute.
  rewrite (handle_verify_settles _ _ _ key Hne Hk), Hpoll. cbv zeta.
  unfold settle_verification.
  unfold envelope_ok in Henv. cbn [fst snd] in Henv.
  destruct (get paystackData "status") as [es|] eqn:Hes; [|discriminate].
  apply andb_true_iff in Henv as [-> Htruthy].
  unfold bind at 1. unfold lift at 1. rewrite Htruthy. cbn [negb orb].
  unfold bind at 1. unfold lift at 1. rewrite Hdata.
  unfold bind at 1. unfold lift at 1. rewrite (get_field _ "reference" Hpd).
  unfold bind at 1. unfold lift at 1. rewrite (get_field _ "amount" Hpd).
  unfold bind at 1. unfold lift at 1. rewrite (get_field _ "status" Hpd).
  unfold bind at 1. rewrite (select_payment_found _ _ _ payment) by (auto; exact Hone).
  rewrite log_log.
  unfold bind at 1.
  rewrite (confirm_payment_run env _ paymentData _ (field paymentData "id") payment)
    by (auto using get_field).
  cbn [snd]. unfold bind at 1. unfold lift at 1.
  rewrite (get_field _ "paid_at" Hpd). reflexivity.
Qed.


Lemma organization_updates_app a b :
  organization_updates (a ++ b) = organization_updates a + organization_updates b.
Proof. unfold organization_updates. now rewrite filter_app, length_app. Qed.

Lemma subscription_upserts_app a b :
  subscription_upserts (a ++ b) = subscription_upserts a + subscription_upserts b.
Proof. unfold subscription_upserts. now rewrite filter_app, length_app. Qed.

Lemma polling_trace_writes reference n :
  organization_updates (polling_trace reference n) = 0
  /\ subscription_upserts (polling_trace reference n) = 0.
Proof.
  induction n as [|[|m] IH]; try (split; reflexivity).
  change (polling_trace reference (S (S m)))
    with (polling_trace reference (S m)
          ++ [EvSleep 2000; EvFetchVerify reference (S (S m))])%list.
  rewrite organization_updates_app, subscription_upserts_app.
  destruct IH as [-> ->]. split; reflexivity.
Qed.

Lemma cycle_warnings_writes c :
  organization_updates (cycle_warnings c) = 0
  /\ subscription_upserts (cycle_warnings c) = 0.
Proof. unfold cycle_warnings. destruct (_ || _); split; reflexivity. Qed.

Lemma update_errors_writes env :
  organization_updates (update_errors env) = 0
  /\ subscription_upserts (update_errors env) = 0.
Proof. unfold update_errors. destruct (update_fault env); split; reflexivity. Qed.

Lemma sync_errors_writes env :
  organization_updates (sync_errors env) = 0
  /\ subscription_upserts (sync_errors env) = 0.
Proof. unfold sync_errors. destruct (organization_fault env); split; reflexivity. Qed.

(** C9: when the upsert of the subscription has succeeded and the update of
    the organization returns an error or throws, the synchronous path still
    answers 200 with [success: true]; the subscription row is in the table,
    the organizations are as they were, and the request has sent exactly one
    upsert and exactly one organization update, after which it only logs
    the failure: nothing is undone and nothing is tried again. *)
Theorem organization_sync_failure_is_swallowed env req d reference paymentData payment :
  verified_with env req reference paymentData ->
  is_str (field paymentData "status") "success" = true ->
  single (payments_with reference d) = Some payment ->
  select_fault env = NoFault ->
  update_fault env <> ExceptionThrown ->
  upsert_fault env = NoFault ->
  organization_fault env <> NoFault ->
  let result := serving env req d in
  status (fst result) = 200
  /\ success (payload (fst result)) = Some true
  /\ subscriptions (db (snd result))
     = upsert_row (verify_subscription env reference payment 1) (subscriptions d)
  /\ organizations (db (snd result)) = organizations d
  /\ subscription_upserts (trace (snd result)) = 1
  /\ organization_updates (trace (snd result)) = 1
  /\ sync_errors env <> []
  /\ exists earlier,
       trace (snd result)
       = (earlier ++ EvUpdateOrganization (Payment.organization_id payment)
                     :: sync_errors env)%list.
Proof.
  intros Hver Hsuccess Hone Hsel Hupd Hups Horg result. subst result.
  rewrite (verify_served env req d reference paymentData payment) by auto.
  rewrite (confirm_payment_run env _ paymentData _ (field paymentData "id") payment).
  2:{ destruct Hver as (_ & _ & _ & _ & _ & _ & _ & _ & _ & _ & Hpd).
      now apply get_field. }
  2,3: auto.
  rewrite Hsuccess. cbn [fst snd status payload success db ticks trace log start].
  assert (Hsync : forall e x, after_sync env payment e x = x).
  { intros e x. unfold after_sync. destruct (organization_fault env); congruence. }
  assert (Hpay : forall u x, subscriptions (after_update env reference u x) = subscriptions x
                             /\ organizations (after_update env reference u x) = organizations x).
  { intros u x. unfold after_update. destruct (update_fault env); split; reflexivity. }
  rewrite Hsync. cbn [upsert_subscription subscriptions organizations].
  destruct (Hpay (verify_patch env (field paymentData "status") (field paymentData "id") 0)
                 d) as [-> ->].
  split; [reflexivity|]. split; [reflexivity|]. split; [reflexivity|].
  split; [reflexivity|]. split; [|split; [|split]].
  - rewrite !subscription_upserts_app.
    rewrite (proj2 (polling_trace_writes _ _)), (proj2 (update_errors_writes _)),
            (proj2 (cycle_warnings_writes _)), (proj2 (sync_errors_writes _)).
    reflexivity.
  - rewrite !organization_updates_app.
    rewrite (proj1 (polling_trace_writes _ _)), (proj1 (update_errors_writes _)),
            (proj1 (cycle_warnings_writes _)), (proj1 (sync_errors_writes _)).
    reflexivity.
  - unfold sync_errors. destruct (organization_fault env); congruence.
  - eexists. rewrite !app_assoc. rewrite <- app_assoc.
    change (?a ++ [?x; ?y] ++ ?z)%list with (a ++ [x] ++ y :: z)%list.
    rewrite app_assoc. reflexivity.
Qed.

(** An update by reference keeps the reference of every row, so the rows of
    a reference after it are the updated rows of that reference. *)
Lemma payments_with_update r r' u d :
  payments_with r (update_payments r' u d)
  = map (fun p => if Payment.reference p =? r' then Payment.apply u p else p)
        (payments_with r d).
Proof.
  unfold payments_with, update_payments. cbn [payments].
  induction (payments d) as [|p rows IH]; [reflexivity|].
  cbn [map filter].
  destruct (Payment.reference p =? r') eqn:E; cbn [Payment.apply Payment.reference];
    destruct (Payment.reference p =? r) eqn:F; cbn [map]; rewrite ?E, IH; reflexivity.
Qed.

Lemma single_updated r u d payment :
  single (payments_with r d) = Some payment ->
  single (payments_with r (update_payments r u d)) = Some (Payment.apply u payment).
Proof.
  rewrite payments_with_update. unfold single, payments_with.
  destruct (filter _ (payments d)) as [|p [|q rest]] eqn:E; try discriminate.
  intros [= ->]. cbn [map].
  assert (Hp : In payment (filter (fun p => Payment.reference p =? r) (payments d)))
    by (rewrite E; left; reflexivity).
  apply filter_In in Hp as [_ ->]. reflexivity.
Qed.

(** C10: an OK envelope around a transaction whose status is not
    ['success'] marks the payment row [failed] and is still answered with
    200 and [success: true], the transaction's status in the [status]
    member; and a 400 with [success: false] comes from a failed envelope
    and from nothing else. *)
Theorem verify_reports_failure_as_success env req d :
  (forall reference paymentData payment,
     verified_with env req reference paymentData ->
     is_str (field paymentData "status") "success" = false ->
     single (payments_with reference d) = Some payment ->
     select_fault env = NoFault ->
     update_fault env = NoFault ->
     let result := serving env req d in
     fst result
     = {| status := 200;
          payload := BVerified (field paymentData "status") (field paymentData "amount")
                       (field paymentData "reference") (field paymentData "paid_at") |}
     /\ success (payload (fst result)) = Some true
     /\ option_map Payment.status (single (payments_with reference (db (snd result))))
        = Some failed
     /\ subscriptions (db (snd result)) = subscriptions d)
  /\ (route req = RVerify ->
      status (fst (serving env req d)) = 400 ->
      success (payload (fst (serving env req d))) = Some false ->
      exists n ok paystackData,
        poll env (verify_reference (path req)) = Val (n, (ok, paystackData))
        /\ envelope_ok (ok, paystackData) = false).
Proof.
  split.
  - intros reference paymentData payment Hver Hfail Hone Hsel Hupd result. subst result.
    rewrite (verify_served env req d reference paymentData payment)
      by (auto; congruence).
    rewrite (confirm_payment_run env _ paymentData _ (field paymentData "id") payment).
    2:{ destruct Hver as (_ & _ & _ & _ & _ & _ & _ & _ & _ & _ & Hpd).
        now apply get_field. }
    2,3: congruence.
    rewrite Hfail. cbn [fst snd status payload success db ticks trace log start].
    unfold after_update, verify_patch. rewrite Hupd, Hfail.
    repeat split. rewrite (single_updated _ _ _ payment Hone). reflexivity.
  - intros Hroute. unfold serve, handler, dispatch. rewrite Hroute.
    unfold handle_verify.
    destruct (verify_reference (path req) =? "") eqn:Href; [discriminate|].
    destruct (secret_key (paystackSecretKey env)); [|discriminate].
    unfold bind at 1. rewrite verify_loop_poll.
    destruct (poll env (verify_reference (path req))) as [[n [ok b]]|e] eqn:Hpoll;
      [|discriminate].
    unfold settle_verification.
    destruct (poll_body_defined _ _ _ _ _ Hpoll "status") as [es Hes].
    destruct (poll_body_defined _ _ _ _ _ Hpoll "message") as [msg Hmsg].
    destruct (poll_body_defined _ _ _ _ _ Hpoll "data") as [pd Hdata].
    unfold bind at 1. unfold lift at 1. rewrite Hes.
    destruct (negb ok || negb (truthy es)) eqn:Hbad.
    + intros _ _. exists n, ok, b. split; [reflexivity|].
      unfold envelope_ok. cbn [fst snd]. rewrite Hes.
      destruct ok, (truthy es); try reflexivity; discriminate.
    + unfold bind at 1. unfold lift at 1. rewrite Hdata.
      destruct (get_cases pd) as [[e He]|[_ Hpd]].
      { unfold bind at 1. unfold lift at 1. rewrite He. discriminate. }
      destruct (Hpd "reference") as [? R1], (Hpd "amount") as [? R2],
               (Hpd "status") as [? R3], (Hpd "paid_at") as [? R4].
      unfold bind at 1. unfold lift at 1. rewrite R1.
      unfold bind at 1. unfold lift at 1. rewrite R2.
      unfold bind at 1. unfold lift at 1. rewrite R3.
      unfold bind at 1.
      destruct (select_payment env _ _) as [[[[payment|] []]|e] s1];
        try discriminate.
      unfold bind at 1.
      destruct (confirm_payment env _ _ _ _ _) as [[[]|e] s2]; [|discriminate].
      unfold bind at 1. unfold lift at 1. rewrite R4. discriminate.
Qed.

(** C4, as amended: a gateway verification that ends in failure is answered
    with 400 and [success: false] when the last response has a failed
    envelope, and with 500 when a call to the provider throws; in both
    cases the tables are as they were, so the payment row keeps the status
    it had. *)
Theorem verify_gateway_failure_leaves_ledger env req d key :
  route req = RVerify ->
  verify_reference (path req) <> "" ->
  secret_key (paystackSecretKey env) = Some key ->
  let result := serving env req d in
  (forall n ok paystackData,
     poll env (verify_reference (path req)) = Val (n, (ok, paystackData)) ->
     envelope_ok (ok, paystackData) = false ->
     fst result
     = {| status := 400;
          payload := BVerifyFailed
                       (or_else (field paystackData "message")
                                (JStr "Failed to verify payment"))
                       paystackData |}
     /\ success (payload (fst result)) = Some false
     /\ db (snd result) = d)
  /\ (forall e,
        poll env (verify_reference (path req)) = Thrown e ->
        fst result = {| status := 500; payload := BException e (clock env 0) |}
        /\ db (snd result) = d).
Proof.
  intros Hroute Href Hkey result. subst result.
  unfold serve, handler, dispatch. rewrite Hroute.
  rewrite (handle_verify_settles _ _ _ key Href Hkey). cbv zeta. split.
  - intros n ok paystackData Hpoll Henv. rewrite Hpoll.
    unfold settle_verification, field.
    destruct (poll_body_defined _ _ _ _ _ Hpoll "status") as [es Hes].
    destruct (poll_body_defined _ _ _ _ _ Hpoll "message") as [msg Hmsg].
    unfold envelope_ok in Henv. cbn [fst snd] in Henv. rewrite Hes in Henv.
    exec. rewrite Hes, Hmsg.
    replace (negb ok || negb (truthy es)) with true
      by (destruct ok, (truthy es); try reflexivity; discriminate).
    repeat split.
  - intros e Hpoll. rewrite Hpoll. repeat split.
Qed.

(** *** Invariants of the tables *)

Lemma preserves_ret {A} P (a : A) : preserves P (ret a).
Proof. intros s H. exact H. Qed.

Lemma preserves_lift {A} P (r : Res A) : preserves P (lift r).
Proof. intros s H. exact H. Qed.

Lemma preserves_throw {A} P e : preserves P (@throw A e).
Proof. intros s H. exact H. Qed.

Lemma preserves_emit P e : preserves P (emit e).
Proof. intros s H. exact H. Qed.

Lemma preserves_new_Date P env : preserves P (new_Date env).
Proof. intros s H. exact H. Qed.

Lemma preserves_read_db P : preserves P read_db.
Proof. intros s H. exact H. Qed.

Lemma preserves_modify_db P f :
  (forall d, P d -> P (f d)) -> preserves P (modify_db f).
Proof. intros Hf s H. apply Hf, H. Qed.

Lemma preserves_bind {A B} P (c : M A) (k : A -> M B) :
  preserves P c -> (forall a, preserves P (k a)) -> preserves P (bind c k).
Proof.
  intros Hc Hk s H. unfold bind. specialize (Hc s H).
  destruct (c s) as [[a|e] s']; cbn [snd] in *; [apply Hk, Hc | exact Hc].
Qed.

Lemma preserves_try_catch {A} P (c : M A) (h : string -> M A) :
  preserves P c -> (forall e, preserves P (h e)) -> preserves P (try_catch c h).
Proof.
  intros Hc Hh s H. unfold try_catch. specialize (Hc s H).
  destruct (c s) as [[a|e] s']; cbn [snd] in *; [exact Hc | apply Hh, Hc].
Qed.

Ltac preserve :=
  repeat match goal with
  | |- preserves _ (bind _ _) => apply preserves_bind; [|intros ?]
  | |- preserves _ (try_catch _ _) => apply preserves_try_catch; [|intros ?]
  | |- preserves _ (ret _) => apply preserves_ret
  | |- preserves _ (lift _) => apply preserves_lift
  | |- preserves _ (throw _) => apply preserves_throw
  | |- preserves _ (emit _) => apply preserves_emit
  | |- preserves _ (console_error _) => apply preserves_emit
  | |- preserves _ (sleep _) => apply preserves_emit
  | |- preserves _ (new_Date _) => apply preserves_new_Date
  | |- preserves _ read_db => apply preserves_read_db
  | |- preserves _ (modify_db _) => apply preserves_modify_db; auto
  | |- preserves _ (when ?b _) => unfold when
  | |- preserves _ (match ?x with _ => _ end) => destruct x
  end.

Lemma select_payment_preserves P env r : preserves P (select_payment env r).
Proof. unfold select_payment. preserve. Qed.

Lemma update_payment_preserves P env r u :
  payments_stable P -> preserves P (update_payment env r u).
Proof. intros H. unfold update_payment. preserve. Qed.

Lemma upsert_preserves P env row :
  subscriptions_stable P -> preserves P (upsert env row).
Proof. intros H. unfold upsert. preserve. Qed.

Lemma update_organization_preserves P env org u :
  organizations_stable P -> preserves P (update_organization env org u).
Proof. intros H. unfold update_organization. preserve. Qed.

Lemma create_subscription_preserves P env reference payment :
  subscriptions_stable P -> organizations_stable P ->
  preserves P (create_subscription env reference payment).
Proof.
  intros Hs Ho. unfold create_subscription, sync_organization, verify_end_date.
  preserve; auto using upsert_preserves, update_organization_preserves.
Qed.

Lemma verify_loop_preserves P env fuel reference attempts last :
  preserves P (verify_loop env fuel reference attempts last).
Proof.
  revert attempts last.
  induction fuel as [|fuel IH]; intros attempts last; cbn [verify_loop]; preserve.
  apply IH.
Qed.

Lemma handle_verify_preserves P env path :
  payments_stable P -> subscriptions_stable P -> organizations_stable P ->
  preserves P (handle_verify env path).
Proof.
  intros Hp Hs Ho. unfold handle_verify, settle_verification, confirm_payment.
  preserve;
    auto using verify_loop_preserves, select_payment_preserves, update_payment_preserves,
               create_subscription_preserves.
Qed.

Lemma process_charge_preserves P env paymentData :
  payments_stable P -> subscriptions_stable P ->
  preserves P (process_charge env paymentData).
Proof.
  intros Hp Hs. unfold process_charge.
  preserve; auto using select_payment_preserves, update_payment_preserves, upsert_preserves.
Qed.

Lemma handle_webhook_preserves P env req :
  payments_stable P -> subscriptions_stable P ->
  preserves P (handle_webhook createHmacSha512 JSON_parse env req).
Proof.
  intros Hp Hs. unfold handle_webhook.
  preserve; auto using process_charge_preserves.
Qed.

(** Every request other than a checkout initialisation keeps an invariant
    that the three statements keep. *)
Lemma serve_preserves P env req d :
  payments_stable P -> subscriptions_stable P -> organizations_stable P ->
  route req <> RInitialize ->
  P d -> P (db (snd (serving env req d))).
Proof.
  intros Hp Hs Ho Hroute HP. unfold serve, handler.
  assert (Hd : preserves P (dispatch createHmacSha512 JSON_parse env handle_initialize req)).
  { unfold dispatch. destruct (route req); try congruence; preserve;
      auto using handle_verify_preserves, handle_webhook_preserves. }
  specialize (Hd (start d) HP).
  destruct (dispatch _ _ _ _ _ _) as [[response|e] s']; cbn [snd] in *; exact Hd.
Qed.

(** *** The webhook path *)

(** A correctly signed ['charge.success'] event is answered with 200 when
    [process_charge] ends normally and with 500 when it throws; either way
    what it wrote stays. *)
Lemma webhook_served env req d paymentData :
  notified_of createHmacSha512 JSON_parse env req paymentData ->
  serving env req d
  = match process_charge env paymentData (start d) with
    | (Val _, s') => ({| status := 200; payload := BAck |}, s')
    | (Thrown e, s') =>
        ({| status := 500; payload := BException e (clock env (ticks s')) |},
         {| db := db s'; ticks := S (ticks s');
            trace := trace s' ++ [EvConsoleError ("Edge function error: " ++ e);
                                  EvConsoleError "Stack"] |})
    end.
Proof.
  intros (Hroute & (key & Hkey & Hsig) & event & Hparse & Hevent & Hdata & Hpd).
  unfold serve, handler, dispatch. rewrite Hroute.
  unfold handle_webhook. rewrite Hkey, Hsig, differs_same.
  unfold bind at 1. unfold lift at 1. rewrite Hparse.
  unfold bind at 1. unfold lift at 1. rewrite Hevent.
  unfold bind at 1. unfold lift at 1. rewrite Hdata.
  unfold bind at 1. unfold lift at 1.
  destruct (opt_get_total paymentData "reference") as [w ->].
  cbn [is_str String.eqb Ascii.eqb Bool.eqb]. unfold when at 1. unfold bind at 1.
  destruct (process_charge env paymentData (start d)) as [[[]|e] s'].
  - reflexivity.
  - exec. rewrite <- app_assoc. reflexivity.
Qed.

(** The webhook path from the ledger lookup on, for the one payment row of
    the event's reference. *)
Lemma process_charge_run env paymentData payment s :
  nullish paymentData = false ->
  single (payments_with (to_String (field paymentData "reference")) (db s)) = Some payment ->
  select_fault env = NoFault ->
  update_fault env <> ExceptionThrown ->
  upsert_fault env = NoFault ->
  let reference := field paymentData "reference" in
  let u := webhook_patch env (field paymentData "id") (ticks s) in
  let row := webhook_subscription env reference payment (S (ticks s)) in
  process_charge env paymentData s
  = (Val tt,
     {| db := upsert_subscription row (after_update env (to_String reference) u (db s));
        ticks := S (S (S (ticks s)));
        trace := trace s ++ [EvSelectPayment (to_String reference);
                             EvUpdatePayment (to_String reference);
                             EvUpsertSubscription (Payment.organization_id payment)] |}).
Proof.
  intros Hpd Hone Hsel Hupd Hups. cbv zeta. unfold process_charge.
  unfold bind at 1. unfold lift at 1. rewrite (get_field _ "reference" Hpd).
  unfold bind at 1. rewrite (select_payment_found _ _ _ payment) by auto.
  unfold bind at 1. unfold new_Date at 1. unfold log. cbn [db ticks trace].
  unfold bind at 1. unfold lift at 1. rewrite (get_field _ "id" Hpd).
  unfold after_update, webhook_patch.
  exec. rewrite Hups.
  destruct (update_fault env); try congruence; exec;
    rewrite <- ?app_assoc; reflexivity.
Qed.

Lemma confirm_payment_payments env reference paymentData data_status payment s :
  nullish paymentData = false ->
  update_fault env = NoFault ->
  payments (db (snd (confirm_payment env reference paymentData data_status payment s)))
  = payments (update_payments reference
                (verify_patch env data_status (field paymentData "id") (ticks s)) (db s)).
Proof.
  intros Hpd Hupd. unfold confirm_payment.
  unfold bind at 1. unfold new_Date at 1.
  unfold bind at 1. unfold lift at 1. rewrite (get_field _ "id" Hpd).
  unfold bind at 1. unfold update_payment. exec. rewrite Hupd. exec.
  set (d1 := update_payments reference _ (db s)).
  destruct (is_str data_status "success"); [|reflexivity].
  apply (create_subscription_preserves (fun x => payments x = payments d1));
    [intros ? ? ?; auto .. | reflexivity].
Qed.

Lemma process_charge_payments env paymentData payment s :
  nullish paymentData = false ->
  single (payments_with (to_String (field paymentData "reference")) (db s)) = Some payment ->
  select_fault env = NoFault ->
  update_fault env = NoFault ->
  payments (db (snd (process_charge env paymentData s)))
  = payments (update_payments (to_String (field paymentData "reference"))
                (webhook_patch env (field paymentData "id") (ticks s)) (db s)).
Proof.
  intros Hpd Hone Hsel Hupd. unfold process_charge.
  unfold bind at 1. unfold lift at 1. rewrite (get_field _ "reference" Hpd).
  unfold bind at 1. rewrite (select_payment_found _ _ _ payment) by auto.
  unfold bind at 1. unfold new_Date at 1. unfold log. cbn [db ticks trace].
  unfold bind at 1. unfold lift at 1. rewrite (get_field _ "id" Hpd).
  unfold bind at 1. unfold update_payment. exec. rewrite Hupd. exec.
  destruct (upsert_fault env); reflexivity.
Qed.

(** C2, as amended: the update of the payment row carries no condition on
    the stored status.  Whenever either path finds the one row of the
    reference and its update goes through, the row afterwards has the
    status, [verified_at] and (when the provider gives an id)
    [transaction_id] of this call, whatever it held before: the synchronous
    path writes [completed] or [failed] after the provider's transaction
    status, the webhook path writes [completed]. *)
Theorem terminal_transition_overwrites env req d payment :
  select_fault env = NoFault ->
  update_fault env = NoFault ->
  (forall reference paymentData,
     verified_with env req reference paymentData ->
     single (payments_with reference d) = Some payment ->
     single (payments_with reference (db (snd (serving env req d))))
     = Some (Payment.apply
               (verify_patch env (field paymentData "status") (field paymentData "id") 0)
               payment))
  /\ (forall paymentData,
        notified_of createHmacSha512 JSON_parse env req paymentData ->
        single (payments_with (to_String (field paymentData "reference")) d) = Some payment ->
        single (payments_with (to_String (field paymentData "reference"))
                              (db (snd (serving env req d))))
        = Some (Payment.apply (webhook_patch env (field paymentData "id") 0) payment)).
Proof.
  intros Hsel Hupd. split.
  - intros reference paymentData Hver Hone.
    assert (Hpay : payments (db (snd (serving env req d)))
                   = payments (update_payments reference
                       (verify_patch env (field paymentData "status")
                                     (field paymentData "id") 0) d)).
    { destruct Hver as (Hroute & Href & Hne & Hkey & n & ok & paystackData
                        & Hpoll & Henv & Hdata & Hpd).
      subst reference.
      destruct (secret_key (paystackSecretKey env)) as [key|] eqn:Hk; [|congruence].
      unfold serve, handler, dispatch. rewrite Hroute.
      rewrite (handle_verify_settles _ _ _ key Hne Hk), Hpoll. cbv zeta.
      unfold settle_verification.
      unfold envelope_ok in Henv. cbn [fst snd] in Henv.
      destruct (get paystackData "status") as [es|] eqn:Hes; [|discriminate].
      apply andb_true_iff in Henv as [-> Htruthy].
      unfold bind at 1. unfold lift at 1. rewrite Htruthy. cbn [negb orb].
      unfold bind at 1. unfold lift at 1. rewrite Hdata.
      unfold bind at 1. unfold lift at 1. rewrite (get_field _ "reference" Hpd).
      unfold bind at 1. unfold lift at 1. rewrite (get_field _ "amount" Hpd).
      unfold bind at 1. unfold lift at 1. rewrite (get_field _ "status" Hpd).
      unfold bind at 1. rewrite (select_payment_found _ _ _ payment) by (auto; exact Hone).
      unfold bind at 1.
      pose proof (confirm_payment_payments env (verify_reference (path req)) paymentData
                    (field paymentData "status") payment
                    (log (log (start d) (polling_trace (verify_reference (path req))
                                           (fetches env (verify_reference (path req)))))
                         [EvSelectPayment (verify_reference (path req))]) Hpd Hupd) as Hc.
      destruct (confirm_payment env _ _ _ _ _) as [[[]|e] s1]; cbn [snd] in Hc.
      - unfold bind at 1. unfold lift at 1. rewrite (get_field _ "paid_at" Hpd).
        exact Hc.
      - exact Hc. }
    unfold payments_with in *. rewrite Hpay.
    apply (single_updated reference _ d payment Hone).
  - intros paymentData Hnot Hone.
    assert (Hpd : nullish paymentData = false).
    { destruct Hnot as (_ & _ & event & _ & _ & _ & H). exact H. }
    rewrite (webhook_served env req d paymentData Hnot).
    pose proof (process_charge_payments env paymentData payment (start d)
                  Hpd Hone Hsel Hupd) as Hc.
    assert (Hpay : payments (db (snd
              match process_charge env paymentData (start d) with
              | (Val _, s') => ({| status := 200; payload := BAck |}, s')
              | (Thrown e, s') =>
                  ({| status := 500; payload := BException e (clock env (ticks s')) |},
                   {| db := db s'; ticks := S (ticks s');
                      trace := trace s' ++ [EvConsoleError ("Edge function error: " ++ e);
                                            EvConsoleError "Stack"] |})
              end))
            = payments (update_payments (to_String (field paymentData "reference"))
                          (webhook_patch env (field paymentData "id") 0) d)).
    { destruct (process_charge env paymentData (start d)) as [[[]|e] s1]; exact Hc. }
    unfold payments_with in *. rewrite Hpay.
    apply (single_updated _ _ d payment Hone).
Qed.

(** *** The upsert and the unique index *)

Lemma upsert_row_absent row rows :
  ~ In (Subscription.organization_id row) (map Subscription.organization_id rows) ->
  existsb (fun s => Subscription.organization_id s =? Subscription.organization_id row)
          rows = false
  /\ filter (fun s => Subscription.organization_id s =? Subscription.organization_id row)
            rows = [].
Proof.
  induction rows as [|a rest IH]; cbn [map In existsb filter]; [split; reflexivity|].
  intros Hnot.
  destruct (String.eqb_spec (Subscription.organization_id a)
                            (Subscription.organization_id row)) as [E|E].
  - exfalso. apply Hnot. now left.
  - cbn [orb]. apply IH. intros H. apply Hnot. now right.
Qed.

Lemma upsert_row_organizations row rows :
  map Subscription.organization_id (upsert_row row rows)
  = if existsb (fun s => Subscription.organization_id s =? Subscription.organization_id row)
               rows
    then map Subscription.organization_id rows
    else (map Subscription.organization_id rows ++ [Subscription.organization_id row])%list.
Proof.
  unfold upsert_row.
  destruct (existsb _ rows); [|now rewrite map_app].
  rewrite map_map. apply map_ext. intros s.
  destruct (String.eqb_spec (Subscription.organization_id s)
                            (Subscription.organization_id row)); congruence.
Qed.

Lemma upsert_keeps_unique_index row d :
  one_subscription_per_organization d ->
  one_subscription_per_organization (upsert_subscription row d).
Proof.
  unfold one_subscription_per_organization. cbn [upsert_subscription subscriptions].
  intros Hnd. rewrite upsert_row_organizations.
  destruct (existsb _ (subscriptions d)) eqn:E; [exact Hnd|].
  apply NoDup_app; [exact Hnd | repeat constructor; intros [] | ].
  intros o Hin [<-|[]].
  apply in_map_iff in Hin as (s & Hs & Hin).
  assert (existsb (fun s => Subscription.organization_id s
                            =? Subscription.organization_id row) (subscriptions d) = true).
  { apply existsb_exists. exists s. split; [exact Hin|]. now apply String.eqb_eq. }
  congruence.
Qed.

(** Under the unique index the upserted row is afterwards the one row of
    its organization. *)
Lemma upsert_row_single row rows :
  NoDup (map Subscription.organization_id rows) ->
  filter (fun s => Subscription.organization_id s =? Subscription.organization_id row)
         (upsert_row row rows) = [row].
Proof.
  unfold upsert_row. intros Hnd.
  destruct (existsb _ rows) eqn:E.
  - induction rows as [|a rest IH]; [discriminate|].
    cbn [map] in Hnd. apply NoDup_cons_iff in Hnd as [Ha Hrest].
    cbn [existsb] in E. cbn [map filter].
    destruct (String.eqb_spec (Subscription.organization_id a)
                              (Subscription.organization_id row)) as [Ea|Ea].
    + rewrite String.eqb_refl. f_equal.
      rewrite Ea in Ha. destruct (upsert_row_absent row rest Ha) as [_ Hf].
      assert (M : map (fun s => if Subscription.organization_id s
                                   =? Subscription.organization_id row then row else s) rest
                  = rest).
      { rewrite <- (map_id rest) at 2. apply map_ext_in. intros s Hs.
        destruct (String.eqb_spec (Subscription.organization_id s)
                                  (Subscription.organization_id row)) as [Es|Es];
          [|reflexivity].
        exfalso. apply Ha. rewrite <- Es. now apply in_map. }
      rewrite M. exact Hf.
    + apply String.eqb_neq in Ea. rewrite Ea. apply IH; assumption.
  - rewrite filter_app. cbn [filter]. rewrite String.eqb_refl.
    assert (Hnot : ~ In (Subscription.organization_id row)
                        (map Subscription.organization_id rows)).
    { intros Hin. apply in_map_iff in Hin as (s & Hs & Hin).
      assert (existsb (fun s => Subscription.organization_id s
                                =? Subscription.organization_id row) rows = true).
      { apply existsb_exists. exists s. split; [exact Hin|]. now apply String.eqb_eq. }
      congruence. }
    destruct (upsert_row_absent row rows Hnot) as [_ ->]. reflexivity.
Qed.

Lemma unique_index_stable :
  payments_stable one_subscription_per_organization
  /\ subscriptions_stable one_subscription_per_organization
  /\ organizations_stable one_subscription_per_organization.
Proof.
  repeat split.
  - intros r u d H. exact H.
  - intros row d H. now apply upsert_keeps_unique_index.
  - intros org u d H. exact H.
Qed.

Lemma serve_all_keeps_unique_index runs d :
  Forall (fun run => route (snd run) <> RInitialize) runs ->
  one_subscription_per_organization d ->
  one_subscription_per_organization
    (serve_all createHmacSha512 JSON_parse handle_initialize runs d).
Proof.
  unfold serve_all. intros Hruns. revert d.
  induction Hruns as [|[env req] runs Hroute _ IH]; intros d Hd; cbn [fold_left];
    [exact Hd|].
  apply IH. cbn [fst snd].
  destruct unique_index_stable as (Hp & Hs & Ho).
  now apply serve_preserves.
Qed.

(** C1, as amended: after any number of requests, a confirmation that
    completes, by either path, leaves exactly one subscription row for the
    payment's organization, and that row is the one this confirmation built:
    its start is this request's own clock reading and its end is computed
    from the next reading, whatever row, with whatever payment reference,
    the organization had before. *)
Theorem reconfirmation_rewrites_subscription runs env req d row :
  one_subscription_per_organization d ->
  Forall (fun run => route (snd run) <> RInitialize) runs ->
  let d1 := serve_all createHmacSha512 JSON_parse handle_initialize runs d in
  confirms createHmacSha512 JSON_parse env req d1 row ->
  let d2 := db (snd (serving env req d1)) in
  subscriptions_of (Subscription.organization_id row) d2 = [row]
  /\ Subscription.start_date row = clock env 1
  /\ one_subscription_per_organization d2.
Proof.
  intros Hd Hruns d1 Hconf d2.
  assert (H1 : one_subscription_per_organization d1)
    by now apply serve_all_keeps_unique_index.
  assert (Hsub : subscriptions d2 = upsert_row row (subscriptions d1)).
  { subst d2. destruct Hconf as [reference paymentData payment Hver Hsucc Hone Hsel Hupd Hups
                               | paymentData payment Hnot Hone Hsel Hupd Hups].
    - rewrite (verify_served env req d1 reference paymentData payment) by auto.
      rewrite (confirm_payment_run env _ paymentData _ (field paymentData "id") payment).
      2:{ destruct Hver as (_ & _ & _ & _ & _ & _ & _ & _ & _ & _ & Hpd).
          now apply get_field. }
      2,3: auto.
      rewrite Hsucc. cbn [snd db log start ticks].
      unfold after_sync, after_update.
      destruct (organization_fault env), (update_fault env); reflexivity.
    - assert (Hpd : nullish paymentData = false).
      { destruct Hnot as (_ & _ & event & _ & _ & _ & H). exact H. }
      rewrite (webhook_served env req d1 paymentData Hnot).
      rewrite (process_charge_run env paymentData payment (start d1)) by auto.
      cbn [snd db start ticks]. unfold after_update.
      destruct (update_fault env); reflexivity. }
  split; [|split].
  - unfold subscriptions_of. rewrite Hsub. now apply upsert_row_single.
  - destruct Hconf; reflexivity.
  - unfold one_subscription_per_organization. rewrite Hsub.
    apply (upsert_keeps_unique_index row d1 H1).
Qed.

End Properties.

(** ** The examples: the theorems at concrete requests, and the requests
    at which the specification's stronger readings fail *)
Import Scenario.

Local Notation "'served' env req d" := (serve hmac parse env no_initialize req d)
  (at level 10, env at level 9, req at level 9, d at level 9).

Lemma verified_R1_success now org :
  verified_with (surroundings now (Val (envelope "success")) org) verify_R1 "R1"
                (transaction "success").
Proof.
  repeat split; try discriminate.
  exists 1, true, (snd (envelope "success")). repeat split.
Defined.

Lemma verified_R1_failed now org :
  verified_with (surroundings now (Val (envelope "failed")) org) verify_R1 "R1"
                (transaction "failed").
Proof.
  repeat split; try discriminate.
  exists 3, true, (snd (envelope "failed")). repeat split.
Defined.

Lemma notified_R1 now answer org :
  notified_of hmac parse (surroundings now answer org) (signed charge_success_body)
              (transaction "success").
Proof.
  repeat split.
  - exists "sk_test"%string. split; reflexivity.
  - eexists. repeat split.
Defined.

(** Witness of C5 as amended: a provider that answers ['success'] at
    once. *)
Lemma verify_loop_bounded_polling_witness :
  exists n r,
    1 <= n <= 3
    /\ verify_loop (surroundings morning (Val (envelope "success")) NoFault) 3 "R1" 0 None
                   (start (tables "monthly" pending))
       = (Val (n, Some r), log (start (tables "monthly" pending)) (polling_trace "R1" n))
    /\ paystack_verify (surroundings morning (Val (envelope "success")) NoFault) "R1" n
       = Val r
    /\ (n < 3 -> response_success r = true)
    /\ (forall k, 1 <= k < n ->
        exists r', paystack_verify (surroundings morning (Val (envelope "success")) NoFault)
                                   "R1" k = Val r'
                   /\ response_success r' = false).
Proof.
  apply (verify_loop_bounded_polling
           (surroundings morning (Val (envelope "success")) NoFault) "R1"
           (start (tables "monthly" pending))).
  intros k _. exists true, (snd (envelope "success")). split; reflexivity.
Defined.

(** Counterexample to C5 as stated: a response whose transaction status is
    ['failed'] does not stop the loop; it calls the provider three times and
    waits twice. *)
Lemma loop_retries_after_failed_status :
  verify_loop (surroundings morning (Val (envelope "failed")) NoFault) 3 "R1" 0 None
              (start (tables "monthly" pending))
  = (Val (3, Some (envelope "failed")),
     log (start (tables "monthly" pending))
         [EvFetchVerify "R1" 1; EvSleep 2000; EvFetchVerify "R1" 2;
          EvSleep 2000; EvFetchVerify "R1" 3]).
Proof. vm_compute. reflexivity. Qed.

(** Witness of C6: a webhook signed with something else. *)
Lemma webhook_rejects_bad_signature_witness :
  served (surroundings morning (Val (envelope "success")) NoFault)
         (webhook charge_success_body (Some "forged")) (tables "monthly" pending)
  = ({| status := 401; payload := BError "Invalid signature" |},
     {| db := tables "monthly" pending; ticks := 0;
        trace := [EvConsoleError "Invalid webhook signature"] |}).
Proof.
  apply (webhook_rejects_bad_signature hmac parse no_initialize
           (surroundings morning (Val (envelope "success")) NoFault)
           (webhook charge_success_body (Some "forged")) (tables "monthly" pending)
           "sk_test").
  - reflexivity.
  - reflexivity.
  - discriminate.
Defined.

(** Witness of C8: a signed ['charge.failed'] event. *)
Lemma webhook_acknowledges_other_events_witness :
  served (surroundings morning (Val (envelope "success")) NoFault)
         (signed charge_failed_body) (tables "monthly" pending)
  = ({| status := 200; payload := BAck |}, start (tables "monthly" pending)).
Proof.
  apply (webhook_acknowledges_other_events hmac parse no_initialize
           (surroundings morning (Val (envelope "success")) NoFault)
           (signed charge_failed_body) (tables "monthly" pending) "sk_test"
           (JObj [("event", JStr "charge.failed"); ("data", transaction "failed")])
           (JStr "charge.failed")); reflexivity.
Defined.


(** Witness of C9: an organization update that throws. *)
Lemma organization_sync_failure_is_swallowed_witness :
  let result := served (surroundings morning (Val (envelope "success")) ExceptionThrown)
                       verify_R1 (tables "monthly" pending) in
  status (fst result) = 200
  /\ success (payload (fst result)) = Some true
  /\ subscriptions (db (snd result))
     = upsert_row (verify_subscription
                     (surroundings morning (Val (envelope "success")) ExceptionThrown)
                     "R1" (payment_R1 "monthly" pending) 1)
                  (subscriptions (tables "monthly" pending))
  /\ organizations (db (snd result)) = organizations (tables "monthly" pending)
  /\ subscription_upserts (trace (snd result)) = 1
  /\ organization_updates (trace (snd result)) = 1
  /\ sync_errors (surroundings morning (Val (envelope "success")) ExceptionThrown) <> []
  /\ exists earlier,
       trace (snd result)
       = (earlier ++ EvUpdateOrganization "org-1"
                     :: sync_errors (surroundings morning (Val (envelope "success"))
                                                  ExceptionThrown))%list.
Proof.
  apply (organization_sync_failure_is_swallowed hmac parse no_initialize
           (surroundings morning (Val (envelope "success")) ExceptionThrown)
           verify_R1 (tables "monthly" pending) "R1" (transaction "success")
           (payment_R1 "monthly" pending)).
  - apply verified_R1_success.
  - reflexivity.
  - reflexivity.
  - reflexivity.
  - discriminate.
  - reflexivity.
  - discriminate.
Defined.

(** Witness of C10: a transaction the provider reports as ['failed']
    inside an OK envelope. *)
Lemma verify_reports_failure_as_success_witness :
  let result := served (surroundings morning (Val (envelope "failed")) NoFault)
                       verify_R1 (tables "monthly" pending) in
  fst result
  = {| status := 200;
       payload := BVerified (JStr "failed") (JNum 500000) (JStr "R1")
                            (JStr "2024-01-15T10:29:58.000Z") |}
  /\ success (payload (fst result)) = Some true
  /\ option_map Payment.status (single (payments_with "R1" (db (snd result))))
     = Some failed
  /\ subscriptions (db (snd result)) = [].
Proof.
  apply (proj1 (verify_reports_failure_as_success hmac parse no_initialize
                  (surroundings morning (Val (envelope "failed")) NoFault)
                  verify_R1 (tables "monthly" pending))
               "R1"%string (transaction "failed") (payment_R1 "monthly" pending)).
  - apply verified_R1_failed.
  - reflexivity.
  - reflexivity.
  - reflexivity.
  - reflexivity.
Defined.

(** Witness of C4 as amended: a provider that answers with a failed
    envelope. *)
Lemma verify_gateway_failure_leaves_ledger_witness :
  let result := served (surroundings morning (Val failed_envelope) NoFault)
                       verify_R1 (tables "monthly" pending) in
  fst result
  = {| status := 400;
       payload := BVerifyFailed (JStr "Transaction reference not found")
                                (snd failed_envelope) |}
  /\ success (payload (fst result)) = Some false
  /\ db (snd result) = tables "monthly" pending.
Proof.
  apply (proj1 (verify_gateway_failure_leaves_ledger hmac parse no_initialize
                  (surroundings morning (Val failed_envelope) NoFault)
                  verify_R1 (tables "monthly" pending) "sk_test"
                  ltac:(reflexivity) ltac:(discriminate) ltac:(reflexivity))
               3 false (snd failed_envelope)); reflexivity.
Defined.

(** Counterexample to C4 as stated: after a verification that ends in a failed
    envelope, and after one whose call to the provider throws, the payment
    row is still [pending]. *)
Lemma failed_verification_leaves_payment_pending :
  let refused := served (surroundings morning (Val failed_envelope) NoFault)
                        verify_R1 (tables "monthly" pending) in
  let unreachable := served (surroundings morning (Thrown "error sending request") NoFault)
                            verify_R1 (tables "monthly" pending) in
  status (fst refused) = 400
  /\ map Payment.status (payments (db (snd refused))) = [pending]
  /\ status (fst unreachable) = 500
  /\ map Payment.status (payments (db (snd unreachable))) = [pending].
Proof. vm_compute. repeat split. Qed.

(** Witness of C2 as amended: a row that is already [failed]. *)
Lemma terminal_transition_overwrites_witness :
  single (payments_with "R1"
            (db (snd (served (surroundings later (Val (envelope "success")) NoFault)
                             (signed charge_success_body) (tables "monthly" failed)))))
  = Some (Payment.apply
            (webhook_patch (surroundings later (Val (envelope "success")) NoFault)
                           (JNum 9001) 0)
            (payment_R1 "monthly" failed)).
Proof.
  apply (proj2 (terminal_transition_overwrites hmac parse no_initialize
                  (surroundings later (Val (envelope "success")) NoFault)
                  (signed charge_success_body) (tables "monthly" failed)
                  (payment_R1 "monthly" failed) ltac:(reflexivity) ltac:(reflexivity))
               (transaction "success")).
  - apply notified_R1.
  - reflexivity.
Defined.

(** Counterexample to C2 as stated: a terminal row changes.  A row that is
    [failed] becomes [completed] with a transaction id when the
    ['charge.success'] event arrives, and a row that is [completed] becomes
    [failed] when a later verification sees a transaction that is not
    ['success']. *)
Lemma terminal_payment_changes :
  let notified := served (surroundings later (Val (envelope "success")) NoFault)
                         (signed charge_success_body) (tables "monthly" failed) in
  let verified := served (surroundings later (Val (envelope "failed")) NoFault)
                         verify_R1 (tables "monthly" completed) in
  map (fun p => (Payment.status p, Payment.transaction_id p))
      (payments (tables "monthly" failed)) = [(failed, None)]
  /\ map (fun p => (Payment.status p, Payment.transaction_id p))
         (payments (db (snd notified))) = [(completed, Some "9001"%string)]
  /\ map Payment.status (payments (tables "monthly" completed)) = [completed]
  /\ map Payment.status (payments (db (snd verified))) = [failed].
Proof. vm_compute. repeat split. Qed.

(** Witness of C1 as amended: a webhook that follows a synchronous
    verification of the same reference. *)
Lemma reconfirmation_rewrites_subscription_witness :
  let first := surroundings morning (Val (envelope "success")) NoFault in
  let second := surroundings later (Val (envelope "success")) NoFault in
  let d1 := serve_all hmac parse no_initialize [(first, verify_R1)]
                      (tables "monthly" pending) in
  let row := webhook_subscription second (JStr "R1")
               (Payment.apply (verify_patch first (JStr "success") (JNum 9001) 0)
                              (payment_R1 "monthly" pending)) 1 in
  let d2 := db (snd (served second (signed charge_success_body) d1)) in
  subscriptions_of (Subscription.organization_id row) d2 = [row]
  /\ Subscription.start_date row = clock second 1
  /\ one_subscription_per_organization d2.
Proof.
  apply (reconfirmation_rewrites_subscription hmac parse no_initialize
           [(surroundings morning (Val (envelope "success")) NoFault, verify_R1)]
           (surroundings later (Val (envelope "success")) NoFault)
           (signed charge_success_body) (tables "monthly" pending)).
  - constructor.
  - constructor; [discriminate | constructor].
  - apply (confirms_webhook hmac parse _ _ _ (transaction "success")).
    + apply notified_R1.
    + reflexivity.
    + reflexivity.
    + discriminate.
    + reflexivity.
Defined.

(** Counterexample to C1 as stated: the organization's row already carries the
    reference R1 when the webhook for R1 arrives an hour after the
    synchronous verification, and the upsert still replaces its dates. *)
Lemma reconfirmation_changes_dates :
  let first := db (snd (served (surroundings morning (Val (envelope "success")) NoFault)
                               verify_R1 (tables "monthly" pending))) in
  let second := db (snd (served (surroundings later (Val (envelope "success")) NoFault)
                                (signed charge_success_body) first)) in
  map (fun s => (Subscription.payment_reference s,
                 Subscription.start_date s, Subscription.end_date s))
      (subscriptions first)
  = [(JStr "R1", 1705314600001, 1707993000002)]%Z
  /\ map (fun s => (Subscription.payment_reference s,
                    Subscription.start_date s, Subscription.end_date s))
         (subscriptions second)
     = [(JStr "R1", 1705318200001, 1707996600002)]%Z
  /\ subscriptions second <> subscriptions first.
Proof.
  vm_compute. repeat split. discriminate.
Qed.

(** C3, at the input where the code departs from it: for a payment whose
    billing cycle is neither ['monthly'] nor ['yearly'] the synchronous path
    logs the unknown cycle and gives the subscription a month, as the claim
    says, and the webhook path gives it a year and logs nothing. *)
Theorem webhook_unknown_cycle_gets_a_year :
  let verified := served (surroundings morning (Val (envelope "success")) NoFault)
                         verify_R1 (tables "weekly" pending) in
  let notified := served (surroundings morning (Val (envelope "success")) NoFault)
                         (signed charge_success_body) (tables "weekly" pending) in
  map (fun s => (Subscription.start_date s, Subscription.end_date s))
      (subscriptions (db (snd verified)))
  = [(1705314600001, 1707993000002)]%Z
  /\ filter (fun e => match e with EvConsoleError _ => true | _ => false end)
            (trace (snd verified))
     = [EvConsoleError "UNKNOWN BILLING CYCLE: weekly";
        EvConsoleError "Defaulting to monthly"]
  /\ map (fun s => (Subscription.start_date s, Subscription.end_date s))
         (subscriptions (db (snd notified)))
     = [(1705314600001, 1736937000002)]%Z
  /\ filter (fun e => match e with EvConsoleError _ => true | _ => false end)
            (trace (snd notified)) = []
  /\ status (fst notified) = 200.
Proof. vm_compute. repeat split. Qed.
